(** * AgentGraph-Intel: the React client and the rank-fusion contract

    A shallow embedding of the chat hook ([useChat.js]), the HTTP layer
    ([services/api.js]), the chat view ([MessageBubble], [ChatWindow],
    [InputBar], [AgentStatus]), the graph hook ([useGraph.js]) and the
    documents page ([DocumentsPage.jsx]).

    React state is a record, a state setter is a function on that record,
    an [await] splits a handler into the part before and the part after the
    promise settles, and the settled promise is an input of the second part.
    JavaScript strings are sequences of UTF-16 code units. *)

From Stdlib Require Import ZArith NArith List Ascii String DecimalString.
From Stdlib Require Import QArith Qcanon DecimalPos DecimalZ.
From stdpp Require Import base option list gmap strings sorting numbers.

Local Open Scope Z_scope.

(** ** JavaScript strings and truthiness *)

Module Js.

(** A string is its sequence of UTF-16 code units. *)
Definition jsstring := list N.

(** A literal of the source written in ASCII. *)
Definition lit (s : string) : jsstring :=
  map N_of_ascii (list_ascii_of_string s).

(** ECMAScript WhiteSpace and LineTerminator code points, the set that
    [String.prototype.trim] strips. All of them are single code units. *)
Definition is_whitespace (c : N) : bool :=
  ((c =? 0x09) || (c =? 0x0A) || (c =? 0x0B) || (c =? 0x0C) || (c =? 0x0D)
   || (c =? 0x20) || (c =? 0xA0) || (c =? 0x1680)
   || ((0x2000 <=? c) && (c <=? 0x200A))
   || (c =? 0x2028) || (c =? 0x2029) || (c =? 0x202F) || (c =? 0x205F)
   || (c =? 0x3000) || (c =? 0xFEFF))%N.

Fixpoint trimStart (s : jsstring) : jsstring :=
  match s with
  | c :: s' => if is_whitespace c then trimStart s' else s
  | [] => []
  end.

Definition trimEnd (s : jsstring) : jsstring :=
  rev (trimStart (rev s)).

(** [s.trim()] *)
Definition trim (s : jsstring) : jsstring := trimEnd (trimStart s).

(** ToBoolean on a string: only the empty string is falsy. *)
Definition truthy (s : jsstring) : bool :=
  match s with [] => false | _ :: _ => true end.

(** ToBoolean on a value that is a string or [undefined]. *)
Definition truthy_opt (o : option jsstring) : bool :=
  match o with Some s => truthy s | None => false end.

(** [a || b] where [a] is a string or [undefined]. *)
Definition or_else (a b : option jsstring) : option jsstring :=
  if truthy_opt a then a else b.

(** [a || []] where [a] is an array, [undefined] or [null]: an array is
    truthy even when it is empty. *)
Definition or_empty {A} (a : option (list A)) : list A :=
  match a with Some l => l | None => [] end.

(** [n.toString()] on an integer. *)
Definition toString (n : Z) : jsstring :=
  lit (NilZero.string_of_int (Z.to_int n)).

End Js.

Import Js.

(** ** services/api.js *)

Module Api.

(** The JSON body of a request: an object as its list of own properties. *)
Definition Body := list (string * jsstring).

Inductive Method := GET | POST | DELETE.

Record Request := {
  req_method : Method;
  req_url : jsstring;
  req_body : Body;
}.

(** What a rejected axios call carries. [error.response?.data?.detail]
    walks three objects, each of which may be missing. *)
Record ErrData := { detail : option jsstring }.
Record ErrResponse := { err_data : option ErrData }.
Record AxiosError := {
  response : option ErrResponse;
  ax_message : option jsstring;
}.

(** [new Error(message)] *)
Record JsError := { err_message : jsstring }.

(** A settled promise. *)
Inductive Settled (A : Type) :=
  | Resolved (a : A)
  | Rejected (e : JsError).
Arguments Resolved {A} a.
Arguments Rejected {A} e.

(** The rejection handler of [api.interceptors.response]:
    [error.response?.data?.detail || error.message || 'An error occurred'],
    wrapped in a new [Error], for a [detail] that is a string, as
    docs/api_reference.md gives it. [Interceptor] below has any [detail]. *)
Definition interceptor_message (error : AxiosError) : jsstring :=
  let d := (response error ≫= err_data) ≫= detail in
  match or_else (or_else d (ax_message error)) (Some (lit "An error occurred")) with
  | Some m => m
  | None => []
  end.

Definition interceptor_rejected (error : AxiosError) : JsError :=
  {| err_message := interceptor_message error |}.

(** What the server (or the network) answers to a request. *)
Inductive HttpResult (A : Type) :=
  | Http_ok (data : A)
  | Http_error (error : AxiosError).
Arguments Http_ok {A} data.
Arguments Http_error {A} error.

(** The promise chain of every call of this file:
    interceptors, then [.then((r) => r.data)]. *)
Definition settle {A} (r : HttpResult A) : Settled A :=
  match r with
  | Http_ok data => Resolved data
  | Http_error error => Rejected (interceptor_rejected error)
  end.

(** [sendMessage(query)]: [api.post('/chat', { query })]. *)
Definition sendMessage_request (query : jsstring) : Request :=
  {| req_method := POST;
     req_url := lit "/chat";
     req_body := [("query"%string, query)] |}.

(** [deleteDocument(docId)]: [api.delete(`/documents/${docId}`)].
    Interpolating [undefined] gives the text "undefined". *)
Definition deleteDocument_request (docId : option jsstring) : Request :=
  {| req_method := DELETE;
     req_url := lit "/documents/" ++ default (lit "undefined") docId;
     req_body := [] |}.

(** Own-property lookup in a body. *)
Fixpoint body_get (k : string) (b : Body) : option jsstring :=
  match b with
  | [] => None
  | (k', v) :: b' => if decide (k = k') then Some v else body_get k b'
  end.

End Api.

Import Api.

(** ** hooks/useChat.js *)

Module UseChat.

Inductive Role := user | assistant.

#[global] Instance Role_eq_dec : EqDecision Role.
Proof. solve_decision. Defined.

(** A source citation, with the properties the view reads. *)
Record Source := {
  document : option jsstring;
  title : option jsstring;
  chunk : option jsstring;
}.

(** An extracted entity. *)
Record Entity := {
  ent_name : option jsstring;
  ent_type : option jsstring;
}.

(** The body of a [POST /chat] answer: the properties the hook reads, and
    [session_id], which docs/api_reference.md lists and the hook does not
    read. [None] is a property that is missing or [null]. *)
Record ChatResponse := {
  answer : option jsstring;
  sources : option (list Source);
  steps_taken : option (list jsstring);
  entities : option (list Entity);
  session_id : option jsstring;
}.

(** The typedef [Message]. The bracketed properties are optional. *)
Record Message := {
  id : jsstring;
  role : Role;
  content : option jsstring;
  msg_sources : option (list Source);
  agent_trail : option (list jsstring);
  msg_entities : option (list Entity);
  timestamp : Z;
}.

(** The object literal handed to [addMessage], before [id] and
    [timestamp] are added. *)
Record Draft := {
  d_role : Role;
  d_content : option jsstring;
  d_sources : option (list Source);
  d_agent_trail : option (list jsstring);
  d_entities : option (list Entity);
}.

(** The three [useState] cells of the hook, and the requests issued so far. *)
Record State := {
  messages : list Message;
  isLoading : bool;
  error : option jsstring;
  requests : list Request;
}.

Definition initial : State :=
  {| messages := []; isLoading := false; error := None; requests := [] |}.

Definition setMessages (f : list Message → list Message) (st : State) : State :=
  {| messages := f (messages st); isLoading := isLoading st;
     error := error st; requests := requests st |}.

Definition setIsLoading (b : bool) (st : State) : State :=
  {| messages := messages st; isLoading := b;
     error := error st; requests := requests st |}.

Definition setError (e : option jsstring) (st : State) : State :=
  {| messages := messages st; isLoading := isLoading st;
     error := e; requests := requests st |}.

Definition issue (r : Request) (st : State) : State :=
  {| messages := messages st; isLoading := isLoading st;
     error := error st; requests := requests st ++ [r] |}.

(** Two readings of [Date.now()], one for [id] and one for [timestamp]. *)
Record Clock := { now_id : Z; now_timestamp : Z }.

(** [{ ...message, id: Date.now().toString(), timestamp: Date.now() }] *)
Definition stamp (c : Clock) (m : Draft) : Message :=
  {| id := toString (now_id c);
     role := d_role m;
     content := d_content m;
     msg_sources := d_sources m;
     agent_trail := d_agent_trail m;
     msg_entities := d_entities m;
     timestamp := now_timestamp c |}.

(** [addMessage]: [setMessages((prev) => [...prev, {...}])]. *)
Definition addMessage (c : Clock) (m : Draft) : State → State :=
  setMessages (λ prev, prev ++ [stamp c m]).

(** [{ role: 'user', content: query }] *)
Definition user_draft (query : jsstring) : Draft :=
  {| d_role := user; d_content := Some query;
     d_sources := None; d_agent_trail := None; d_entities := None |}.

(** The object literal of the [try] branch. *)
Definition answer_draft (data : ChatResponse) : Draft :=
  {| d_role := assistant;
     d_content := answer data;
     d_sources := Some (or_empty (sources data));
     d_agent_trail := Some (or_empty (steps_taken data));
     d_entities := Some (or_empty (entities data)) |}.

(** U+26A0 U+FE0F, the warning sign, then " Error: ". *)
Definition error_prefix : jsstring := [0x26A0; 0xFE0F]%N ++ lit " Error: ".

(** The object literal of the [catch] branch. *)
Definition error_draft (err : JsError) : Draft :=
  {| d_role := assistant;
     d_content := Some (error_prefix ++ err_message err);
     d_sources := Some [];
     d_agent_trail := Some [];
     d_entities := Some [] |}.

(** [!query.trim() || isLoading]: the early return of [send], for the
    callback of the latest render, whose [isLoading] is that of the state
    it is called in. [ChatClosure] below has the callback of any render. *)
Definition send_returns_early (query : jsstring) (st : State) : bool :=
  negb (truthy (trim query)) || isLoading st.

(** [send], up to the [await]: the user message, the two setters and the
    request. The result says whether a request is now pending. *)
Definition send_begin (c : Clock) (query : jsstring) (st : State) : State * bool :=
  if send_returns_early query st then (st, false)
  else
    let st1 := addMessage c (user_draft query) st in
    let st2 := setIsLoading true st1 in
    let st3 := setError None st2 in
    (issue (sendMessage_request query) st3, true).

(** [send], after the promise has settled: [try] or [catch], then
    [finally]. *)
Definition send_settle (c : Clock) (r : Settled ChatResponse) (st : State) : State :=
  let st1 :=
    match r with
    | Resolved data => addMessage c (answer_draft data) st
    | Rejected err => addMessage c (error_draft err) (setError (Some (err_message err)) st)
    end in
  setIsLoading false st1.

(** One whole call of [send] with nothing interleaved. *)
Definition send (c1 c2 : Clock) (query : jsstring) (r : HttpResult ChatResponse)
    (st : State) : State :=
  match send_begin c1 query st with
  | (st', true) => send_settle c2 (settle r) st'
  | (st', false) => st'
  end.

(** [clearMessages] *)
Definition clearMessages (st : State) : State :=
  setError None (setMessages (λ _, []) st).

(** What can happen to the hook: a call of [send], a pending promise
    settling, a call of [clearMessages]. *)
Inductive Event :=
  | Send (c : Clock) (query : jsstring)
  | Settle (c : Clock) (r : Settled ChatResponse)
  | Clear.

Definition step (e : Event) (st : State) : State :=
  match e with
  | Send c query => (send_begin c query st).1
  | Settle c r => send_settle c r st
  | Clear => clearMessages st
  end.

(** The states of the hook after any series of events, from the mount. *)
Inductive reachable : State → Prop :=
  | reach_initial : reachable initial
  | reach_step e st : reachable st → reachable (step e st).

End UseChat.

(** ** components/chat/InputBar.jsx *)

Module InputBar.

(** [handleSend]: the argument handed to [onSend], if it is called, and the
    next [value] of the text area. *)
Definition handleSend (value : jsstring) (disabled : bool)
    : option jsstring * jsstring :=
  if truthy (trim value) && negb disabled
  then (Some (trim value), [])
  else (None, value).

End InputBar.

(** ** components/chat/AgentStatus.jsx *)

Module AgentStatus.

Record Step := { emoji : jsstring; label : jsstring; agent : jsstring }.

Definition AGENT_STEPS : list Step :=
  [ {| emoji := [0xD83D; 0xDD0D]%N;
       label := lit "Router analyzing query...";
       agent := lit "router" |};
    {| emoji := [0xD83D; 0xDCDA]%N;
       label := lit "Researcher retrieving documents...";
       agent := lit "researcher" |};
    {| emoji := [0xD83D; 0xDD17]%N;
       label := lit "KG Builder extracting entities...";
       agent := lit "kg_builder" |};
    {| emoji := [0xD83E; 0xDDE0]%N;
       label := lit "Analyst reasoning over context...";
       agent := lit "analyst" |} ].

(** The updater of the interval callback:
    [(i) => (i + 1) % AGENT_STEPS.length]. *)
Definition tick (i : nat) : nat := ((i + 1) mod length AGENT_STEPS)%nat.

(** The interval period, in milliseconds. *)
Definition period : Z := 1800.

(** [useState(0)] *)
Definition mounted : nat := 0%nat.

(** [stepIndex] once the interval has fired [n] times since the mount. *)
Definition after_ticks (n : nat) : nat := Nat.iter n tick mounted.

(** [stepIndex] when [elapsed] milliseconds have passed since the mount,
    the interval firing at every multiple of [period]. *)
Definition stepIndex_at (elapsed : Z) : nat :=
  after_ticks (Z.to_nat (elapsed / period)).

(** What is drawn: the line of the current step, and one progress dot per
    step, lit when [i <= stepIndex]. *)
Record View := {
  current : Step;
  dots : list bool;
}.

(** The component takes no props; [AGENT_STEPS[stepIndex]] off the end is
    [undefined], and reading [.emoji] of it throws. *)
Definition render (stepIndex : nat) : option View :=
  cur ← AGENT_STEPS !! stepIndex;
  Some {| current := cur;
          dots := imap (λ i _, bool_decide (i ≤ stepIndex)%nat) AGENT_STEPS |}.

End AgentStatus.

(** ** components/chat/MessageBubble.jsx and ChatWindow.jsx *)

Module MessageBubble.
Import UseChat.

(** The two [useState] cells of a bubble. *)
Record Local := { copied : bool; showSources : bool }.

Definition fresh : Local := {| copied := false; showSources := false |}.

(** One [span] of the agent trail. *)
Record Badge := { badge_key : nat; badge_text : jsstring }.

(** The button that opens and closes the list of sources. *)
Record Toggle := {
  chevron_up : bool;
  count : nat;
  plural : jsstring;
}.

(** One entry of the list of sources. *)
Record Item := {
  item_key : nat;
  item_number : nat;
  item_label : option jsstring;
  item_chunk : option jsstring;
}.

(** The block under the bubble of an assistant message. A part that is
    not rendered is [None]. *)
Record Meta := {
  trail : option (list Badge);
  toggle : option Toggle;
  source_list : option (list Item);
}.

Record View := {
  isUser : bool;
  body : option jsstring;
  meta : option Meta;
}.

(** [message.agent_trail && message.agent_trail.length > 0 && (...)] *)
Definition render_trail (m : Message) : option (list Badge) :=
  match agent_trail m with
  | Some l =>
      if (0 <? length l)%nat
      then Some (imap (λ i a, {| badge_key := i; badge_text := a |}) l)
      else None
  | None => None
  end.

(** [message.sources && message.sources.length > 0 && (...)] *)
Definition render_toggle (st : Local) (m : Message) : option Toggle :=
  match msg_sources m with
  | Some l =>
      if (0 <? length l)%nat
      then Some {| chevron_up := showSources st;
                   count := length l;
                   plural := if (1 <? length l)%nat
                             then lit "s" else lit "" |}
      else None
  | None => None
  end.

(** One source: [source.document || source.title || 'Source'], and the
    paragraph of [source.chunk && (...)]. *)
Definition render_item (i : nat) (s : Source) : Item :=
  {| item_key := i;
     item_number := (i + 1)%nat;
     item_label := or_else (or_else (document s) (title s)) (Some (lit "Source"));
     item_chunk := if truthy_opt (chunk s) then chunk s else None |}.

(** [showSources && message.sources && (...)] *)
Definition render_sources (st : Local) (m : Message) : option (list Item) :=
  if showSources st
  then match msg_sources m with
       | Some l => Some (imap render_item l)
       | None => None
       end
  else None.

Definition render (st : Local) (m : Message) : View :=
  let is_user := bool_decide (role m = user) in
  {| isUser := is_user;
     body := content m;
     meta := if negb is_user
             then Some {| trail := render_trail m;
                          toggle := render_toggle st m;
                          source_list := render_sources st m |}
             else None |}.

(** [onClick={() => setShowSources((s) => !s)}] *)
Definition setShowSources (f : bool → bool) (st : Local) : Local :=
  {| copied := copied st; showSources := f (showSources st) |}.

(** A click on the toggle: there is something to click only when the
    button is rendered. *)
Definition click_toggle (m : Message) (st : Local) : option Local :=
  match meta (render st m) ≫= toggle with
  | Some _ => Some (setShowSources negb st)
  | None => None
  end.

(** The local state after a series of clicks on the toggle, from the
    mount of the bubble. *)
Fixpoint clicks (n : nat) (m : Message) : option Local :=
  match n with
  | O => Some fresh
  | S n' => clicks n' m ≫= click_toggle m
  end.

End MessageBubble.

Module ChatWindow.
Import UseChat.

Record View := {
  placeholder : bool;
  bubbles : list MessageBubble.View;
  status : option AgentStatus.View;
}.

(** [locals] gives the cells of the bubble mounted under a key, and
    [stepIndex] the cell of the status line. *)
Definition render (locals : jsstring → MessageBubble.Local) (stepIndex : nat)
    (messages : list Message) (isLoading : bool) : View :=
  {| placeholder := bool_decide (length messages = 0%nat);
     bubbles := map (λ m, MessageBubble.render (locals (id m)) m) messages;
     status := if isLoading then AgentStatus.render stepIndex else None |}.

End ChatWindow.

(** ** hooks/useGraph.js and components/graph/GraphControls.jsx *)

Module UseGraph.

(** A node of the graph. [type] is the property key that
    [activeFilters[n.type]] looks up. *)
Record Node := {
  node_id : option jsstring;
  name : option jsstring;
  type : string;
}.

#[global] Instance Node_eq_dec : EqDecision Node.
Proof. solve_decision. Defined.

(** The initial [activeFilters]. *)
Definition initial_filters : gmap string bool :=
  <["Person" := true]> (<["Organization" := true]> (<["Concept" := true]>
  (<["Technology" := true]> (<["Event" := true]> ∅)))).

(** [!prev[type]]: a missing property reads [undefined], whose negation
    is [true]. The filter object is modelled by its own properties; the
    keys used below are the five it is created with. *)
Definition not_flag (o : option bool) : bool :=
  match o with Some b => negb b | None => true end.

(** [toggleFilter]: [(prev) => ({ ...prev, [type]: !prev[type] })]. *)
Definition toggleFilter (t : string) (prev : gmap string bool) : gmap string bool :=
  <[t := not_flag (prev !! t)]> prev.

(** [activeFilters[n.type] !== false] *)
Definition shown (activeFilters : gmap string bool) (n : Node) : bool :=
  bool_decide (activeFilters !! type n ≠ Some false).

(** [filteredNodes] *)
Definition filteredNodes (activeFilters : gmap string bool) (nodes : list Node)
    : list Node :=
  List.filter (shown activeFilters) nodes.

(** The check boxes of [GraphControls]: one per entry, each calling
    [onToggleFilter] with its own type. *)
Definition ENTITY_TYPES : list string :=
  ["Person"; "Organization"; "Concept"; "Technology"; "Event"]%string.

(** The entity types of the knowledge graph, as docs/architecture.md
    lists them. *)
Definition GRAPH_ENTITY_TYPES : list string :=
  ["PERSON"; "ORGANIZATION"; "LOCATION"; "TECHNOLOGY"; "CONCEPT"; "EVENT";
   "PRODUCT"; "DATE"]%string.

(** The filter states the page can be in: the controls toggle listed
    types only. *)
Inductive reachable : gmap string bool → Prop :=
  | reach_initial : reachable initial_filters
  | reach_toggle t f :
      t ∈ ENTITY_TYPES → reachable f → reachable (toggleFilter t f).

End UseGraph.

(** ** pages/DocumentsPage.jsx *)

Module DocumentsPage.

(** A document of the list, with the properties the page and
    [DocumentList] read. [id] is [undefined] when the object has none. *)
Record Doc := {
  id : option jsstring;
  doc_name : option jsstring;
  filename : option jsstring;
}.

#[global] Instance Doc_eq_dec : EqDecision Doc.
Proof. solve_decision. Defined.

Record State := {
  documents : list Doc;
  loading : bool;
  error : option jsstring;
}.

Definition setDocuments (f : list Doc → list Doc) (st : State) : State :=
  {| documents := f (documents st); loading := loading st; error := error st |}.

Definition setError (e : option jsstring) (st : State) : State :=
  {| documents := documents st; loading := loading st; error := e |}.

(** [handleDelete], after [deleteDocument(docId)] has settled. The answer
    of the server is not read. *)
Definition handleDelete {A} (docId : option jsstring) (r : Settled A)
    (st : State) : State :=
  match r with
  | Resolved _ =>
      setDocuments (λ docs, List.filter (λ d, bool_decide (id d ≠ docId)) docs) st
  | Rejected err => setError (Some (err_message err)) st
  end.

End DocumentsPage.

(** ** The fusion ranker of the hybrid retriever (spec, section 4.2) *)

Module Fusion.

Local Open Scope Qc_scope.

(** Modelled from the spec: the fusion ranker is backend code that is not
    among the sources; only docs/architecture.md states its formula.
    Scores are exact rationals. A rank is 1-based, and a chunk that a list
    does not hold has no rank in it. *)
Fixpoint rank_from (n : nat) (l : list string) (d : string) : option nat :=
  match l with
  | [] => None
  | x :: l' => if decide (x = d) then Some n else rank_from (S n) l' d
  end.

(** Modelled from the spec: the rank of a chunk in a list, from 1. *)
Definition rank (l : list string) (d : string) : option nat := rank_from 1 l d.

(** Modelled from the spec: the default constant [k]. *)
Definition k : Z := 60.
(** Modelled from the spec: the weight 0.6 of the dense list. *)
Definition w_dense : Qc := Qc_of_Z 6 / Qc_of_Z 10.

(** Modelled from the spec: the weight 0.4 of the sparse list. *)
Definition w_sparse : Qc := Qc_of_Z 4 / Qc_of_Z 10.

(** Modelled from the spec: the term of one list, [w / (k + rank)], or 0
    for a chunk the list does not hold. *)
Definition term (w : Qc) (r : option nat) : Qc :=
  match r with
  | Some n => w / Qc_of_Z (k + Z.of_nat n)
  | None => 0
  end.

(** Modelled from the spec: the RetrievalCandidate of the data model, up
    to fusion. *)
Record Candidate := {
  chunk_id : string;
  dense_rank : option nat;
  sparse_rank : option nat;
  fused_score : Qc;
}.

(** Modelled from the spec: the candidate of a chunk, its two ranks and
    the sum of its two terms. *)
Definition candidate (dense sparse : list string) (d : string) : Candidate :=
  {| chunk_id := d;
     dense_rank := rank dense d;
     sparse_rank := rank sparse d;
     fused_score := term w_dense (rank dense d) + term w_sparse (rank sparse d) |}.

(** Modelled from the spec: every chunk that appears in either list, once. *)
Definition candidates (dense sparse : list string) : list Candidate :=
  candidate dense sparse <$> remove_dups (dense ++ sparse).

(** Modelled from the spec: a lower rank wins, and no rank is an infinite
    rank. *)
Definition rank_lt (a b : option nat) : Prop :=
  match a, b with
  | Some i, Some j => (i < j)%nat
  | Some _, None => True
  | None, _ => False
  end.

#[global] Instance rank_lt_dec a b : Decision (rank_lt a b).
Proof. destruct a, b; simpl; apply _. Defined.

(** Modelled from the spec: the order of the fused list. Higher score
    first; on equal scores the lower dense rank; then the chunk ids in
    lexical order. *)
Definition precedes (a b : Candidate) : Prop :=
  fused_score b < fused_score a ∨
  (fused_score a = fused_score b ∧
   (rank_lt (dense_rank a) (dense_rank b) ∨
    (dense_rank a = dense_rank b ∧ String.le (chunk_id a) (chunk_id b)))).

#[global] Instance precedes_dec : RelDecision precedes.
Proof. intros a b. unfold precedes. apply _. Defined.

(** Modelled from the spec: all candidates, sorted. *)
Definition fuse_all (dense sparse : list string) : list Candidate :=
  merge_sort precedes (candidates dense sparse).

(** Modelled from the spec: the fused candidate set, the top [F]. *)
Definition fuse (F : nat) (dense sparse : list string) : list Candidate :=
  take F (fuse_all dense sparse).

End Fusion.

(** ** The hook and the callback of each render *)

Module ChatClosure.
Import UseChat.

(** [send] as a render built it: [captured] is the [isLoading] of that
    render, which the guard reads; the setters act on the state at the
    time of the call. *)
Definition send_begin_from (captured : bool) (c : Clock) (query : jsstring)
    (st : State) : State * bool :=
  if negb (truthy (trim query)) || captured then (st, false)
  else
    let st1 := addMessage c (user_draft query) st in
    let st2 := setIsLoading true st1 in
    let st3 := setError None st2 in
    (issue (sendMessage_request query) st3, true).

(** The hook between two renders: its state, and the [isLoading] that the
    [send] of the latest render closed over. *)
Record Hook := { current : State; captured : bool }.

(** The first render. *)
Definition mounted : Hook := {| current := initial; captured := false |}.

(** A render: [useCallback] rebuilds [send] with the [isLoading] of the
    state. *)
Definition render (h : Hook) : Hook :=
  {| current := current h; captured := isLoading (current h) |}.

(** A call of the [send] of the latest render. *)
Definition call (c : Clock) (query : jsstring) (h : Hook) : Hook :=
  {| current := (send_begin_from (captured h) c query (current h)).1;
     captured := captured h |}.

(** Whether that call issues a request. *)
Definition call_issues (query : jsstring) (h : Hook) : bool :=
  negb (negb (truthy (trim query)) || captured h).

(** A pending promise settles. *)
Definition settled (c : Clock) (r : Settled ChatResponse) (h : Hook) : Hook :=
  {| current := send_settle c r (current h); captured := captured h |}.

(** A call of [clearMessages]. *)
Definition cleared (h : Hook) : Hook :=
  {| current := clearMessages (current h); captured := captured h |}.

(** The hook together with the number of requests that have been issued
    and have not settled. A promise settles only if it is pending. In the
    runs [run true] every call of [send] comes after a render that followed
    the last change of [isLoading]; the runs [run false] are all runs. *)
Inductive run (in_step : bool) : Hook → nat → Prop :=
  | run_mounted : run in_step mounted 0
  | run_render h n : run in_step h n → run in_step (render h) n
  | run_call c query h n :
      run in_step h n →
      (in_step = true → captured h = isLoading (current h)) →
      run in_step (call c query h) (if call_issues query h then S n else n)
  | run_settled c r h n :
      run in_step h (S n) → run in_step (settled c r h) n
  | run_cleared h n :
      run in_step h n → run in_step (cleared h) n.

End ChatClosure.

(** ** Whole series of events of the hook *)

Module ChatRun.
Import UseChat.

(** The state after a series of events, from the mount. *)
Definition replay (evs : list Event) : State :=
  foldl (λ st e, step e st) initial evs.

(** The contents of the user messages, in order. *)
Definition user_contents (ms : list Message) : list (option jsstring) :=
  content <$> List.filter (λ m, bool_decide (role m = user)) ms.

(** The [query] property of the body of each request, in order. *)
Definition request_queries (rs : list Request) : list (option jsstring) :=
  (λ r, body_get "query" (req_body r)) <$> rs.

End ChatRun.

(** ** components/chat/InputBar.jsx, the keyboard and the button *)

Module InputBarKeys.

(** The properties of a [keydown] event that [handleKeyDown] reads. *)
Record KeyEvent := { key : jsstring; shiftKey : bool }.

(** [handleKeyDown]: whether [preventDefault] was called, and what
    [handleSend] did, if it was called. *)
Definition handleKeyDown (e : KeyEvent) (value : jsstring) (disabled : bool)
    : bool * (option jsstring * jsstring) :=
  if bool_decide (key e = lit "Enter") && negb (shiftKey e)
  then (true, InputBar.handleSend value disabled)
  else (false, (None, value)).

(** The [disabled] attribute of the send button:
    [!value.trim() || disabled]. *)
Definition button_disabled (value : jsstring) (disabled : bool) : bool :=
  negb (truthy (trim value)) || disabled.

End InputBarKeys.

(** ** pages/ChatPage.jsx *)

Module ChatPage.
Import UseChat.

(** The hook of the page and the text of its input bar. *)
Record Page := { chat : State; value : jsstring }.

(** A click on the send button, or Enter: [InputBar] is given
    [onSend={send}] and [disabled={isLoading}]. *)
Definition press_send (c : Clock) (p : Page) : Page :=
  match InputBar.handleSend (value p) (isLoading (chat p)) with
  | (Some arg, value') =>
      {| chat := (send_begin c arg (chat p)).1; value := value' |}
  | (None, value') => {| chat := chat p; value := value' |}
  end.

End ChatPage.

(** ** hooks/useGraph.js, the whole hook *)

Module GraphHook.
Import UseGraph.

(** A relationship of the graph, with the properties [GraphViewer]
    reads. *)
Record Link := {
  source : option jsstring;
  from : option jsstring;
  target : option jsstring;
  to : option jsstring;
  link_type : option jsstring;
  relationship : option jsstring;
}.

(** The answer of [GET /graph/stats], with the properties [GraphPage]
    reads. *)
Record Stats := {
  node_count : option Z;
  relationship_count : option Z;
}.

(** The six [useState] cells of the hook. *)
Record State := {
  nodes : list Node;
  links : list Link;
  stats : option Stats;
  isLoading : bool;
  error : option jsstring;
  activeFilters : gmap string bool;
}.

Definition initial : State :=
  {| nodes := []; links := []; stats := None; isLoading := false;
     error := None; activeFilters := initial_filters |}.

Definition setNodes (v : list Node) (st : State) : State :=
  {| nodes := v; links := links st; stats := stats st;
     isLoading := isLoading st; error := error st;
     activeFilters := activeFilters st |}.

Definition setLinks (v : list Link) (st : State) : State :=
  {| nodes := nodes st; links := v; stats := stats st;
     isLoading := isLoading st; error := error st;
     activeFilters := activeFilters st |}.

Definition setStats (v : option Stats) (st : State) : State :=
  {| nodes := nodes st; links := links st; stats := v;
     isLoading := isLoading st; error := error st;
     activeFilters := activeFilters st |}.

Definition setIsLoading (v : bool) (st : State) : State :=
  {| nodes := nodes st; links := links st; stats := stats st;
     isLoading := v; error := error st;
     activeFilters := activeFilters st |}.

Definition setError (v : option jsstring) (st : State) : State :=
  {| nodes := nodes st; links := links st; stats := stats st;
     isLoading := isLoading st; error := v;
     activeFilters := activeFilters st |}.

Definition setActiveFilters (f : gmap string bool → gmap string bool)
    (st : State) : State :=
  {| nodes := nodes st; links := links st; stats := stats st;
     isLoading := isLoading st; error := error st;
     activeFilters := f (activeFilters st) |}.

(** The three promises handed to [Promise.all]. *)
Inductive Slot := slot_nodes | slot_relationships | slot_stats.

(** The first rejection along an order of settlement. *)
Fixpoint first_rejection (order : list Slot) (rejection : Slot → option JsError)
    : option JsError :=
  match order with
  | [] => None
  | s :: order' =>
      match rejection s with
      | Some e => Some e
      | None => first_rejection order' rejection
      end
  end.

Definition rejection_of {A} (r : Settled A) : option JsError :=
  match r with Rejected e => Some e | Resolved _ => None end.

(** [Promise.all([a, b, c])]: the three values when all three promises
    resolve, and otherwise the reason of the promise that rejects first.
    [order] is the order in which the promises settle; a promise that it
    does not list settles after the listed ones. *)
Definition promise_all3 {A B C} (order : list Slot)
    (a : Settled A) (b : Settled B) (c : Settled C) : Settled (A * B * C) :=
  let rejection s :=
    match s with
    | slot_nodes => rejection_of a
    | slot_relationships => rejection_of b
    | slot_stats => rejection_of c
    end in
  match a, b, c with
  | Resolved x, Resolved y, Resolved z => Resolved (x, y, z)
  | Rejected e, _, _
  | Resolved _, Rejected e, _
  | Resolved _, Resolved _, Rejected e =>
      Rejected (default e (first_rejection order rejection))
  end.

(** [fetchGraph], up to the [await]. *)
Definition fetchGraph_begin (st : State) : State :=
  setError None (setIsLoading true st).

(** [fetchGraph], after [Promise.all] has settled. *)
Definition fetchGraph_settle (r : Settled (list Node * list Link * Stats))
    (st : State) : State :=
  let st1 :=
    match r with
    | Resolved (nodesData, relsData, statsData) =>
        setStats (Some statsData) (setLinks relsData (setNodes nodesData st))
    | Rejected err => setError (Some (err_message err)) st
    end in
  setIsLoading false st1.

(** One whole call of [fetchGraph] with nothing interleaved. *)
Definition fetchGraph (order : list Slot)
    (r1 : HttpResult (list Node)) (r2 : HttpResult (list Link))
    (r3 : HttpResult Stats) (st : State) : State :=
  fetchGraph_settle (promise_all3 order (settle r1) (settle r2) (settle r3))
                    (fetchGraph_begin st).

(** [search]: the state after the call and the value it returns,
    [undefined] being [None]. No request is made for a blank query. *)
Definition search {A} (query : jsstring) (r : HttpResult A) (st : State)
    : State * option A :=
  if negb (truthy (trim query)) then (st, None)
  else match settle r with
       | Resolved results => (st, Some results)
       | Rejected err => (setError (Some (err_message err)) st, None)
       end.


(** What can happen to the hook on the graph page: a refresh, a key
    stroke in the search box, a click on one of the check boxes. *)
Inductive Event :=
  | Fetch (order : list Slot) (r1 : HttpResult (list Node))
          (r2 : HttpResult (list Link)) (r3 : HttpResult Stats)
  | Search (query : jsstring) (r : HttpResult (list Node))
  | Toggle (t : string).

Definition step (e : Event) (st : State) : State :=
  match e with
  | Fetch order r1 r2 r3 => fetchGraph order r1 r2 r3 st
  | Search query r => (search query r st).1
  | Toggle t => setActiveFilters (toggleFilter t) st
  end.


Definition replay (evs : list Event) : State :=
  foldl (λ st e, step e st) initial evs.

End GraphHook.

(** ** pages/DocumentsPage.jsx, the other handlers *)

Module DocumentsHandlers.
Import DocumentsPage.

(** The page when it is mounted. *)
Definition initial : State :=
  {| documents := []; loading := true; error := None |}.

Definition setLoading (b : bool) (st : State) : State :=
  {| documents := documents st; loading := b; error := error st |}.

(** [fetchDocuments]. The answer is [Some docs] when it is an array;
    anything else is replaced by the empty list. *)
Definition fetchDocuments (r : HttpResult (option (list Doc))) (st : State) : State :=
  let st1 := setLoading true st in
  let st2 :=
    match settle r with
    | Resolved docs => setDocuments (λ _, default [] docs) st1
    | Rejected err => setError (Some (err_message err)) st1
    end in
  setLoading false st2.

(** [handleUpload]: the state of the page afterwards, and how the promise
    it returns settles. A failed upload rejects before the reload. *)
Definition handleUpload {A} (upload : HttpResult A)
    (reload : HttpResult (option (list Doc))) (st : State) : State * Settled unit :=
  match settle upload with
  | Rejected err => (st, Rejected err)
  | Resolved _ => (fetchDocuments reload st, Resolved tt)
  end.

(** What can happen on the page. *)
Inductive Event :=
  | Reload (r : HttpResult (option (list Doc)))
  | Upload (upload : HttpResult unit) (reload : HttpResult (option (list Doc)))
  | Delete (docId : option jsstring) (r : HttpResult unit).

Definition step (e : Event) (st : State) : State :=
  match e with
  | Reload r => fetchDocuments r st
  | Upload upload reload => (handleUpload upload reload st).1
  | Delete docId r => handleDelete docId (settle r) st
  end.

End DocumentsHandlers.

(** ** components/documents/DocumentList.jsx *)

Module DocumentList.
Import DocumentsPage.

(** Which of the three bodies of the list is rendered. *)
Inductive Body := Skeleton | Placeholder | Rows.

Definition body (documents : list Doc) (loading : bool) : Body :=
  if loading then Skeleton
  else if bool_decide (length documents = 0%nat) then Placeholder
  else Rows.

(** What a click on the delete button of row [i] hands to [onDelete]:
    [doc.id], when the rows are rendered and there is such a row. *)
Definition delete_click (documents : list Doc) (loading : bool) (i : nat)
    : option (option jsstring) :=
  match body documents loading with
  | Rows => id <$> documents !! i
  | _ => None
  end.

End DocumentList.

(** ** components/documents/DocumentUpload.jsx *)

Module DocumentUpload.

(** The values ['success'] and ['error'] of [status]. *)
Inductive Status := success | failure.

(** The three [useState] cells. *)
Record State := { uploading : bool; progress : Z; status : option Status }.

Definition initial : State :=
  {| uploading := false; progress := 0; status := None |}.

Definition setUploading (b : bool) (st : State) : State :=
  {| uploading := b; progress := progress st; status := status st |}.

Definition setProgress (n : Z) (st : State) : State :=
  {| uploading := uploading st; progress := n; status := status st |}.

Definition setStatus (s : option Status) (st : State) : State :=
  {| uploading := uploading st; progress := progress st; status := s |}.

(** The body of the loop for one file, given how [onUpload(file)]
    settled. *)
Definition upload_one {A} (st : State) (r : Settled A) : State :=
  let st1 := setProgress 20 st in
  match r with
  | Resolved _ => setStatus (Some success) (setProgress 100 st1)
  | Rejected _ => setStatus (Some failure) st1
  end.

(** [onDrop], up to the timer: [outcomes] holds, for each accepted file
    in turn, how [onUpload] settled for it. *)
Definition onDrop {A} (outcomes : list (Settled A)) (st : State) : State :=
  if bool_decide (length outcomes = 0%nat) then st
  else
    let st1 := setProgress 0 (setStatus None (setUploading true st)) in
    setUploading false (foldl upload_one st1 outcomes).

(** The timer that [onDrop] sets: [setStatus(null)] after 3 s. *)
Definition status_timeout (st : State) : State := setStatus None st.

End DocumentUpload.

(** ** services/api.js, the rejection handler on any answer *)

Module Interceptor.

(** A [detail] of any JSON type. A value that is not a string is given by
    what the handler observes of it: whether it is truthy, and the string
    that [new Error(value)] stores as its message. *)
Inductive Detail :=
  | detail_string (s : jsstring)
  | detail_other (is_truthy : bool) (string_form : jsstring).

Definition detail_truthy (v : Detail) : bool :=
  match v with
  | detail_string s => truthy s
  | detail_other b _ => b
  end.

(** ToString, as the [Error] constructor applies it to its argument. *)
Definition detail_text (v : Detail) : jsstring :=
  match v with
  | detail_string s => s
  | detail_other _ t => t
  end.

(** What a rejected axios call carries. *)
Record RawData := { raw_detail : option Detail }.
Record RawResponse := { raw_data : option RawData }.
Record RawError := {
  raw_response : option RawResponse;
  raw_message : option jsstring;
}.

(** The message of the [Error] that the rejection handler builds:
    [error.response?.data?.detail || error.message || 'An error occurred']
    selects a value, and [new Error] stores its string form. *)
Definition message_of (error : RawError) : jsstring :=
  match (raw_response error ≫= raw_data) ≫= raw_detail with
  | Some v =>
      if detail_truthy v then detail_text v
      else default (lit "An error occurred")
             (or_else (raw_message error) (Some (lit "An error occurred")))
  | None =>
      default (lit "An error occurred")
        (or_else (raw_message error) (Some (lit "An error occurred")))
  end.

(** An error whose [detail], if any, is a string. *)
Definition of_string_detail (error : AxiosError) : RawError :=
  {| raw_response :=
       (λ r, {| raw_data :=
                  (λ d, {| raw_detail := detail_string <$> detail d |})
                  <$> err_data r |})
       <$> response error;
     raw_message := ax_message error |}.

End Interceptor.

(** ** pages/GraphPage.jsx, the canvas *)

Module GraphPage.
Import UseGraph GraphHook.



End GraphPage.

(** ** Sample inputs *)

Section Scenarios.

Import UseChat UseGraph.

(** Two answers of the server that agree on [answer], [sources] and
    [steps_taken], and a clock. *)
Definition answer_with_entities : ChatResponse :=
  {| answer := Some (lit "LangGraph is a library.");
     sources := None;
     steps_taken := Some [lit "router:researcher"; lit "researcher"; lit "synthesiser"];
     entities := Some [ {| ent_name := Some (lit "LangGraph");
                           ent_type := Some (lit "TECHNOLOGY") |} ];
     session_id := Some (lit "default") |}.

Definition answer_without_entities : ChatResponse :=
  {| answer := Some (lit "LangGraph is a library.");
     sources := None;
     steps_taken := Some [lit "router:researcher"; lit "researcher"; lit "synthesiser"];
     entities := None;
     session_id := Some (lit "default") |}.

Definition noon : Clock := {| now_id := 1700000000000; now_timestamp := 1700000000000 |}.

(** A request that ran into the 60 s timeout of the client. *)
Definition timed_out : AxiosError :=
  {| response := None; ax_message := Some (lit "timeout of 60000ms exceeded") |}.

(** An answer that cites one source. *)
Definition grounded_answer : ChatResponse :=
  {| answer := Some (lit "LangGraph is a library.");
     sources := Some [ {| document := None; title := None; chunk := None |} ];
     steps_taken := Some [lit "researcher"];
     entities := None;
     session_id := None |}.

(** Two fetched nodes, one of a listed type and one of an upper-case type. *)
Definition two_nodes : list Node :=
  [ {| node_id := Some (lit "n1"); name := Some (lit "Ada"); type := "Person" |};
    {| node_id := Some (lit "n2"); name := Some (lit "LangGraph"); type := "TECHNOLOGY" |} ].

End Scenarios.

(** A closed string is not in a closed list of other strings. *)
Ltac not_listed :=
  let H := fresh in
  intros H;
  repeat (apply elem_of_cons in H as [H|H]; [discriminate H|]);
  by apply elem_of_nil in H.

(** * Properties *)

(** ** Strings *)

Section TrimFacts.

Import Js.

Lemma truthy_nonempty (s : jsstring) : truthy s = true ↔ s ≠ [].
Proof. destruct s; simpl; split; congruence. Qed.

Lemma truthy_false (s : jsstring) : truthy s = false ↔ s = [].
Proof. destruct s; simpl; split; congruence. Qed.

Lemma trimStart_head (s : jsstring) :
  trimStart s = [] ∨ ∃ c s', trimStart s = c :: s' ∧ is_whitespace c = false.
Proof.
  induction s as [|c s IH]; simpl; [by left|].
  destruct (is_whitespace c) eqn:E; [exact IH|].
  right. by exists c, s.
Qed.

Lemma trimStart_app (l r : jsstring) (c : N) :
  is_whitespace c = false → trimStart (l ++ c :: r) = trimStart l ++ c :: r.
Proof.
  intros Hc. induction l as [|x l IH]; simpl.
  - by rewrite Hc.
  - destruct (is_whitespace x); [exact IH|done].
Qed.

Lemma trimEnd_cons (c : N) (s : jsstring) :
  is_whitespace c = false → trimEnd (c :: s) = c :: trimEnd s.
Proof.
  intros Hc. unfold trimEnd. simpl.
  rewrite (trimStart_app _ [] c Hc), rev_app_distr. done.
Qed.

Lemma trimStart_trimEnd (s : jsstring) :
  trimStart (trimEnd (trimStart s)) = trimEnd (trimStart s).
Proof.
  destruct (trimStart_head s) as [->|(c & s' & -> & Hc)]; [done|].
  rewrite trimEnd_cons by done. simpl. by rewrite Hc.
Qed.

Lemma trimStart_idem (s : jsstring) : trimStart (trimStart s) = trimStart s.
Proof.
  destruct (trimStart_head s) as [->|(c & s' & -> & Hc)]; [done|].
  simpl. by rewrite Hc.
Qed.

Lemma trimEnd_idem (s : jsstring) : trimEnd (trimEnd s) = trimEnd s.
Proof.
  unfold trimEnd. by rewrite rev_involutive, trimStart_idem.
Qed.

Lemma trim_idem (s : jsstring) : trim (trim s) = trim s.
Proof.
  unfold trim. by rewrite trimStart_trimEnd, trimEnd_idem.
Qed.



End TrimFacts.

(** ** The chat hook *)

Section ChatFacts.

Import UseChat.


Lemma send_begin_requests c q st :
  send_returns_early q st = false →
  requests (send_begin c q st).1 = requests st ++ [sendMessage_request q].
Proof. intros H. unfold send_begin. by rewrite H. Qed.

Lemma send_settle_requests c r st :
  requests (send_settle c r st) = requests st.
Proof. by destruct r. Qed.


End ChatFacts.

Section ChatClaims.

Import UseChat.

(** C1, as stated, fails: the assistant message is not built from
    [answer], [sources] and [steps_taken] alone. Two answers that agree on
    these three fields and differ in [entities] give different messages. *)
Lemma assistant_message_reads_entities :
  answer answer_with_entities = answer answer_without_entities ∧
  sources answer_with_entities = sources answer_without_entities ∧
  steps_taken answer_with_entities = steps_taken answer_without_entities ∧
  messages (send_settle noon (Resolved answer_with_entities) initial)
    ≠ messages (send_settle noon (Resolved answer_without_entities) initial).
Proof. repeat split. vm_compute. discriminate. Qed.

(** C1, amended: a call of [send] that passes the guard and whose request
    succeeds appends the user message and then one assistant message, built
    from four fields of the answer: [content] is [answer], [sources] is
    [sources], [agent_trail] is [steps_taken] and [entities] is [entities],
    each of the three lists being empty when the field is absent. Nothing
    else of the answer is read: two answers that agree on the four fields
    give the same messages. *)
Theorem assistant_message_of_response
    (c1 c2 : Clock) (q : jsstring) (data : ChatResponse) (st : State) :
  send_returns_early q st = false →
  messages (send c1 c2 q (Http_ok data) st) =
    messages st ++
    [ {| id := toString (now_id c1); role := user; content := Some q;
         msg_sources := None; agent_trail := None; msg_entities := None;
         timestamp := now_timestamp c1 |};
      {| id := toString (now_id c2); role := assistant;
         content := answer data;
         msg_sources := Some (or_empty (sources data));
         agent_trail := Some (or_empty (steps_taken data));
         msg_entities := Some (or_empty (entities data));
         timestamp := now_timestamp c2 |} ] ∧
  (sources data = None → or_empty (sources data) = []) ∧
  (steps_taken data = None → or_empty (steps_taken data) = []) ∧
  (entities data = None → or_empty (entities data) = []) ∧
  (∀ data', answer data' = answer data → sources data' = sources data →
     steps_taken data' = steps_taken data → entities data' = entities data →
     messages (send c1 c2 q (Http_ok data') st)
       = messages (send c1 c2 q (Http_ok data) st)).
Proof.
  intros Hguard.
  assert (Hsend : ∀ d, messages (send c1 c2 q (Http_ok d) st) =
            messages st ++ [stamp c1 (user_draft q); stamp c2 (answer_draft d)]).
  { intros d. unfold send, send_begin. rewrite Hguard. simpl.
    by rewrite <- app_assoc. }
  split; [apply Hsend|].
  split; [by intros ->|]. split; [by intros ->|]. split; [by intros ->|].
  intros d' Ha Hs Ht He. rewrite !Hsend.
  unfold answer_draft. by rewrite Ha, Hs, Ht, He.
Qed.

Lemma assistant_message_of_response_witness :
  send_returns_early (lit "What is LangGraph?") initial = false ∧
  msg_entities <$> (messages (send noon noon (lit "What is LangGraph?")
                      (Http_ok answer_without_entities) initial) !! 1%nat)
    = Some (Some []).
Proof.
  split; [reflexivity|].
  rewrite (proj1 (assistant_message_of_response noon noon (lit "What is LangGraph?")
                    answer_without_entities initial eq_refl)).
  reflexivity.
Defined.



End ChatClaims.

Section RequestClaims.

Import UseChat.

(** C3, as stated, fails: the body of the chat request holds neither a
    [session_id] nor a [history]. *)
Lemma chat_request_has_no_session :
  let body := req_body (sendMessage_request (lit "What is LangGraph?")) in
  body_get "session_id" body = None ∧ body_get "history" body = None.
Proof. split; reflexivity. Qed.

(** C3, amended: a call of [send] that passes the guard issues exactly one
    request, a POST to [/chat] whose body has one property, which holds the
    query as it was given; the body has no other property, so no
    [session_id] and no [history] is sent. *)
Theorem chat_request_carries_query_only (c : Clock) (q : jsstring) (st : State) :
  send_returns_early q st = false →
  ∃ req,
    requests (send_begin c q st).1 = requests st ++ [req] ∧
    req_method req = POST ∧
    req_url req = lit "/chat" ∧
    req_body req = [("query"%string, q)] ∧
    body_get "query" (req_body req) = Some q ∧
    (∀ key, key ≠ "query"%string → body_get key (req_body req) = None).
Proof.
  intros Hguard. exists (sendMessage_request q).
  split; [by apply send_begin_requests|].
  repeat split. intros key Hkey. simpl. by rewrite decide_False.
Qed.

Lemma chat_request_carries_query_only_witness :
  send_returns_early (lit "What is LangGraph?") initial = false ∧
  ∃ req,
    requests (send_begin noon (lit "What is LangGraph?") initial).1 = [req] ∧
    req_body req = [("query"%string, lit "What is LangGraph?")].
Proof.
  split; [reflexivity|].
  destruct (chat_request_carries_query_only noon (lit "What is LangGraph?") initial eq_refl)
    as (req & Hreq & _ & _ & Hbody & _).
  exists req. split; [exact Hreq | exact Hbody].
Defined.



End RequestClaims.

(** ** The chat view *)

Section BubbleClaims.

Import UseChat MessageBubble.

Lemma badge_text_imap (l : list jsstring) (g : nat → nat) :
  badge_text <$> imap (λ i a, {| badge_key := g i; badge_text := a |}) l = l.
Proof.
  revert g. induction l as [|a l IH]; intros g; [done|].
  simpl. f_equal. apply (IH (g ∘ S)).
Qed.

Lemma item_number_imap (l : list Source) (k : nat) :
  item_number <$> imap (λ i s, render_item (k + i) s) l = seq (k + 1) (length l).
Proof.
  revert k. induction l as [|s l IH]; intros k; [done|].
  simpl. f_equal; [by rewrite Nat.add_0_r|].
  replace (S (k + 1)) with (S k + 1)%nat by lia.
  rewrite <- (IH (S k)). f_equal. apply imap_ext. intros i x _. simpl.
  unfold render_item. f_equal; lia.
Qed.

Lemma render_assistant_meta (ls : Local) (m : Message) :
  role m = assistant →
  meta (render ls m) =
    Some {| trail := render_trail m; toggle := render_toggle ls m;
            source_list := render_sources ls m |}.
Proof. intros H. unfold render. by rewrite H. Qed.

(** C4: the assistant message that the hook builds from an answer is
    rendered with one badge per element of [steps_taken], in the order of
    the list, and the trail block is rendered exactly when [steps_taken]
    is not empty. The assistant message of a failed request has no steps
    and no trail block. *)
Theorem agent_trail_shows_steps_taken
    (c : Clock) (data : ChatResponse) (err : JsError) (ls : Local) (st : State) :
  let m := stamp c (answer_draft data) in
  let steps := or_empty (steps_taken data) in
  messages (send_settle c (Resolved data) st) = messages st ++ [m] ∧
  (∃ mt, meta (render ls m) = Some mt ∧
    (is_Some (trail mt) ↔ steps ≠ []) ∧
    (steps ≠ [] →
       trail mt = Some (imap (λ i a, {| badge_key := i; badge_text := a |}) steps)) ∧
    badge_text <$> default [] (trail mt) = steps) ∧
  meta (render ls (stamp c (error_draft err))) ≫= trail = None.
Proof.
  cbn zeta. split; [done|]. split; [|done].
  eexists. split; [by apply render_assistant_meta|]. simpl.
  unfold render_trail. simpl.
  destruct (or_empty (steps_taken data)) as [|a l] eqn:E; simpl.
  - split; [|done]. split; [by intros [? ?]|done].
  - split; [split; [done|by eexists]|]. split; [done|].
    f_equal. apply (badge_text_imap l S).
Qed.

Lemma agent_trail_shows_steps_taken_witness :
  ∃ mt, meta (render fresh (stamp noon (answer_draft answer_with_entities))) = Some mt ∧
    badge_text <$> default [] (trail mt)
      = [lit "router:researcher"; lit "researcher"; lit "synthesiser"].
Proof.
  destruct (agent_trail_shows_steps_taken noon answer_with_entities
              {| err_message := lit "Network Error" |} fresh initial)
    as (_ & (mt & Hmt & _ & _ & Htext) & _).
  exists mt. split; [exact Hmt | exact Htext].
Defined.

(** C6, as stated, fails: a freshly rendered message with one source shows
    the toggle and does not show the list of sources. *)
Lemma fresh_bubble_hides_source_list :
  let m := stamp noon (answer_draft grounded_answer) in
  msg_sources m ≠ Some [] ∧
  ∃ mt, meta (render fresh m) = Some mt ∧
    is_Some (toggle mt) ∧ source_list mt = None.
Proof.
  split; [discriminate|]. eexists. split; [reflexivity|].
  split; [by eexists|reflexivity].
Qed.

Lemma clicks_showSources (n : nat) (m : Message) (ls : Local) :
  clicks n m = Some ls →
  showSources ls = Nat.odd n ∧
  (showSources ls = true → is_Some (render_toggle fresh m)).
Proof.
  revert ls. induction n as [|n IH]; intros ls.
  - intros [= <-]. split; [done|discriminate].
  - simpl. destruct (clicks n m) as [ls'|]; [|discriminate]. simpl.
    destruct (IH ls' eq_refl) as [Hodd _].
    unfold click_toggle.
    destruct (meta (render ls' m) ≫= toggle) as [t|] eqn:Et; [|discriminate].
    intros [= <-]. simpl. split.
    + rewrite Hodd, Nat.odd_succ, <- Nat.negb_odd. done.
    + intros _. unfold render in Et.
      destruct (bool_decide (role m = user)); [discriminate|]. simpl in Et.
      unfold render_toggle in *. destruct (msg_sources m) as [l|]; [|discriminate].
      destruct (0 <? length l)%nat; [by eexists|discriminate].
Qed.

(** C6, amended: for an assistant message, after any number of clicks on
    the toggle since the bubble was mounted, the source-count toggle is
    shown exactly when the sources are not empty, and the numbered list of
    sources is shown exactly when the sources are not empty and the toggle
    has been clicked an odd number of times; the list is hidden when the
    bubble mounts. The entries are numbered from 1 in the order of the
    sources. *)
Theorem source_toggle_iff_sources (m : Message) (n : nat) (ls : Local) :
  role m = assistant →
  clicks n m = Some ls →
  let srcs := or_empty (msg_sources m) in
  ∃ mt, meta (render ls m) = Some mt ∧
    (is_Some (toggle mt) ↔ srcs ≠ []) ∧
    (count <$> toggle mt = if decide (srcs = []) then None else Some (length srcs)) ∧
    (is_Some (source_list mt) ↔ srcs ≠ [] ∧ Nat.odd n = true) ∧
    (n = 0%nat → source_list mt = None) ∧
    (∀ items, source_list mt = Some items →
       item_number <$> items = seq 1 (length srcs)).
Proof.
  intros Hrole Hclicks. cbn zeta.
  destruct (clicks_showSources n m ls Hclicks) as [Hodd Hopen].
  eexists. split; [by apply render_assistant_meta|]. simpl.
  unfold render_sources, render_toggle in *. rewrite Hodd in *.
  destruct (msg_sources m) as [[|s l]|]; simpl in *.
  - split; [split; [by intros [? ?]|done]|]. split; [done|].
    split.
    { split; [|by intros [? _]]. intros Hs. exfalso.
      destruct (Nat.odd n); [|by destruct Hs].
      by destruct (Hopen eq_refl). }
    split; [by intros ->|].
    intros items. destruct (Nat.odd n); [|done]. by intros [= <-].
  - split; [split; [done|by eexists]|]. split; [done|].
    split.
    { destruct (Nat.odd n); (split; [intros [x Hx]|intros [_ H]]);
        try done; try discriminate; by eexists. }
    split; [by intros ->|].
    intros items. destruct (Nat.odd n); [|done]. intros [= <-].
    simpl. f_equal. apply (item_number_imap l 1).
  - split; [split; [by intros [? ?]|done]|]. split; [done|].
    split.
    { split; [|by intros [? _]]. destruct (Nat.odd n); by intros [? ?]. }
    split; [by intros ->|].
    intros items. by destruct (Nat.odd n).
Qed.

Lemma source_toggle_iff_sources_witness :
  let m := stamp noon (answer_draft grounded_answer) in
  role m = assistant ∧
  clicks 1 m = Some {| copied := false; showSources := true |} ∧
  ∃ mt, meta (render {| copied := false; showSources := true |} m) = Some mt ∧
    is_Some (source_list mt).
Proof.
  cbn zeta. split; [reflexivity|]. split; [reflexivity|].
  destruct (source_toggle_iff_sources (stamp noon (answer_draft grounded_answer)) 1
              {| copied := false; showSources := true |} eq_refl eq_refl)
    as (mt & Hmt & _ & _ & Hlist & _).
  exists mt. split; [exact Hmt|]. apply Hlist. split; [discriminate|reflexivity].
Defined.

End BubbleClaims.

(** ** The status line *)

Section StatusClaims.

Import UseChat AgentStatus.

Lemma after_ticks_mod (n : nat) : after_ticks n = (n mod 4)%nat.
Proof.
  induction n as [|n IH]; [done|].
  unfold after_ticks in *. rewrite Nat.iter_succ, IH. unfold tick.
  change (length AGENT_STEPS) with 4%nat.
  rewrite Nat.Div0.add_mod_idemp_l. f_equal. lia.
Qed.

Lemma render_agent (i : nat) :
  (i < 4)%nat →
  agent ∘ current <$> render i =
    [lit "router"; lit "researcher"; lit "kg_builder"; lit "analyst"] !! i.
Proof.
  intros Hi. do 4 (destruct i as [|i]; [reflexivity|]). lia.
Qed.

(** C9: while a request is in flight, the status line is a function of the
    time since it was mounted: with the interval firing every 1800 ms, the
    step shown after [elapsed] ms is the entry [(elapsed / 1800) mod 4] of
    router, researcher, kg_builder, analyst. The component reads nothing
    of the chat, so two loading chats with any messages, queries and
    bubble states show the same status line at the same time. *)
Theorem agent_status_depends_on_time_only
    (elapsed : Z) (st1 st2 : State) (locals1 locals2 : jsstring → MessageBubble.Local) :
  0 ≤ elapsed →
  isLoading st1 = true →
  isLoading st2 = true →
  let i := stepIndex_at elapsed in
  let view1 := ChatWindow.render locals1 i (messages st1) (isLoading st1) in
  let view2 := ChatWindow.render locals2 i (messages st2) (isLoading st2) in
  Z.of_nat i = (elapsed / 1800) mod 4 ∧
  ChatWindow.status view1 = ChatWindow.status view2 ∧
  agent ∘ current <$> ChatWindow.status view1 =
    [lit "router"; lit "researcher"; lit "kg_builder"; lit "analyst"] !! i.
Proof.
  intros Hpos H1 H2. cbn zeta.
  assert (Hi : stepIndex_at elapsed = (Z.to_nat (elapsed / 1800) mod 4)%nat).
  { unfold stepIndex_at. apply after_ticks_mod. }
  assert (Hlt : (stepIndex_at elapsed < 4)%nat).
  { rewrite Hi. apply Nat.mod_upper_bound. lia. }
  split; [|split].
  - rewrite Hi, Nat2Z.inj_mod, Z2Nat.id; [done|].
    apply Z.div_pos; lia.
  - unfold ChatWindow.render. simpl. by rewrite H1, H2.
  - unfold ChatWindow.render. simpl. rewrite H1. by apply render_agent.
Qed.

Lemma agent_status_depends_on_time_only_witness :
  let st1 := (send_begin noon (lit "What is LangGraph?") initial).1 in
  let st2 := (send_begin noon (lit "How is LangGraph related to LangChain?") initial).1 in
  0 ≤ 4000 ∧ isLoading st1 = true ∧ isLoading st2 = true ∧
  agent ∘ current <$>
    ChatWindow.status (ChatWindow.render (λ _, MessageBubble.fresh) (stepIndex_at 4000)
                         (messages st1) (isLoading st1))
    = Some (lit "kg_builder").
Proof.
  cbn zeta. split; [lia|]. split; [reflexivity|]. split; [reflexivity|].
  rewrite (proj2 (proj2 (agent_status_depends_on_time_only 4000
            (send_begin noon (lit "What is LangGraph?") initial).1
            (send_begin noon (lit "How is LangGraph related to LangChain?") initial).1
            (λ _, MessageBubble.fresh) (λ _, MessageBubble.fresh)
            ltac:(lia) eq_refl eq_refl))).
  reflexivity.
Defined.

End StatusClaims.

(** ** The graph filters *)

Section GraphClaims.

Import UseGraph.

Lemma reachable_listed (f : gmap string bool) :
  reachable f →
  (∀ t, t ∈ ENTITY_TYPES → is_Some (f !! t)) ∧
  (∀ t, t ∉ ENTITY_TYPES → f !! t = None).
Proof.
  induction 1 as [|t f Ht Hf [IHin IHout]].
  - split.
    + intros t Ht. unfold ENTITY_TYPES in Ht.
      repeat (apply elem_of_cons in Ht as [->|Ht]; [by eexists|]).
      by apply elem_of_nil in Ht.
    + intros t Ht. unfold initial_filters.
      repeat (rewrite lookup_insert_ne;
              [|intros <-; apply Ht; unfold ENTITY_TYPES; set_solver]).
      apply lookup_empty.
  - unfold toggleFilter. split.
    + intros t' Ht'. destruct (decide (t = t')) as [->|Hne].
      * rewrite lookup_insert_eq. by eexists.
      * rewrite lookup_insert_ne by done. by apply IHin.
    + intros t' Ht'. rewrite lookup_insert_ne; [by apply IHout|].
      by intros ->.
Qed.

Lemma toggleFilter_twice (t : string) (f : gmap string bool) :
  is_Some (f !! t) → toggleFilter t (toggleFilter t f) = f.
Proof.
  intros [b Hb]. unfold toggleFilter.
  rewrite lookup_insert_eq, insert_insert_eq, Hb. simpl.
  rewrite negb_involutive. by apply insert_id.
Qed.

Lemma filteredNodes_sublist (f : gmap string bool) (nodes : list Node) :
  filteredNodes f nodes `sublist_of` nodes.
Proof.
  unfold filteredNodes. induction nodes as [|n nodes IH]; simpl; [done|].
  destruct (shown f n); by constructor.
Qed.

(** C8: in every filter state that the controls can produce, the filtered
    nodes are a sub-list of the fetched nodes, and a node whose type is
    not one of the five listed keys, such as every upper-case entity type
    of the knowledge graph, is kept whatever the toggles are. Toggling a
    listed type negates the flag of that type and leaves every other flag
    as it was, so toggling it twice gives back the same filter state and
    the same filtered nodes. *)
Theorem graph_filter_invariants
    (f : gmap string bool) (nodes : list Node) (t : string) :
  reachable f →
  t ∈ ENTITY_TYPES →
  filteredNodes f nodes `sublist_of` nodes ∧
  (∀ n, n ∈ filteredNodes f nodes → n ∈ nodes) ∧
  (∀ n, n ∈ nodes → type n ∉ ENTITY_TYPES → n ∈ filteredNodes f nodes) ∧
  (∀ n, n ∈ nodes → type n ∈ GRAPH_ENTITY_TYPES → n ∈ filteredNodes f nodes) ∧
  toggleFilter t f !! t = negb <$> f !! t ∧
  is_Some (f !! t) ∧
  (∀ t', t' ≠ t → toggleFilter t f !! t' = f !! t') ∧
  toggleFilter t (toggleFilter t f) = f ∧
  filteredNodes (toggleFilter t (toggleFilter t f)) nodes = filteredNodes f nodes.
Proof.
  intros Hf Ht. destruct (reachable_listed f Hf) as [Hin Hout].
  assert (Hkeep : ∀ n, n ∈ nodes → type n ∉ ENTITY_TYPES → n ∈ filteredNodes f nodes).
  { intros n Hn Hty. unfold filteredNodes.
    apply list_elem_of_In, filter_In. split; [by apply list_elem_of_In|].
    unfold shown. rewrite (Hout _ Hty). by apply bool_decide_eq_true. }
  split; [apply filteredNodes_sublist|].
  split. { intros n Hn. eapply elem_of_sublist; [exact Hn|apply filteredNodes_sublist]. }
  split; [exact Hkeep|].
  split.
  { intros n Hn Hty. apply Hkeep; [done|].
    unfold GRAPH_ENTITY_TYPES in Hty. unfold ENTITY_TYPES.
    repeat (apply elem_of_cons in Hty as [->|Hty]; [not_listed|]).
    by apply elem_of_nil in Hty. }
  destruct (Hin t Ht) as [b Hb].
  split. { unfold toggleFilter. by rewrite lookup_insert_eq, Hb. }
  split; [by eexists|].
  split. { intros t' Hne. unfold toggleFilter. by rewrite lookup_insert_ne. }
  rewrite toggleFilter_twice by by eexists. done.
Qed.

Lemma graph_filter_invariants_witness :
  reachable (toggleFilter "Person" initial_filters) ∧
  "Person"%string ∈ ENTITY_TYPES ∧
  filteredNodes (toggleFilter "Person" (toggleFilter "Person"
                   (toggleFilter "Person" initial_filters))) two_nodes
    = filteredNodes (toggleFilter "Person" initial_filters) two_nodes.
Proof.
  assert (Hin : "Person"%string ∈ ENTITY_TYPES) by (unfold ENTITY_TYPES; set_solver).
  assert (Hr : reachable (toggleFilter "Person" initial_filters))
    by (constructor; [exact Hin | constructor]).
  split; [exact Hr|]. split; [exact Hin|].
  apply (graph_filter_invariants _ two_nodes "Person" Hr Hin).
Defined.

End GraphClaims.

(** ** The documents page *)

Section DocumentClaims.

Import DocumentsPage.

(** C10: after a successful [deleteDocument(docId)] the list of documents
    is the previous list without the entries whose [id] is [docId], every
    other entry being kept, once and in its place; [loading] and [error]
    are unchanged. After a failed one the list and [loading] are unchanged
    and [error] is the failure message. *)
Theorem handleDelete_frame
    {A} (docId : option jsstring) (a : A) (e : AxiosError) (st : State) :
  let ok := handleDelete docId (Resolved a) st in
  let failed := handleDelete docId (settle (@Http_error A e)) st in
  documents ok = List.filter (λ d, bool_decide (id d ≠ docId)) (documents st) ∧
  (∀ d, d ∈ documents ok ↔ d ∈ documents st ∧ id d ≠ docId) ∧
  documents ok `sublist_of` documents st ∧
  (∀ d, id d ≠ docId →
     length (List.filter (λ x, bool_decide (x = d)) (documents ok))
       = length (List.filter (λ x, bool_decide (x = d)) (documents st))) ∧
  loading ok = loading st ∧
  error ok = error st ∧
  documents failed = documents st ∧
  loading failed = loading st ∧
  error failed = Some (interceptor_message e).
Proof.
  cbn zeta. simpl. split; [done|].
  split.
  { intros d. rewrite !list_elem_of_In, filter_In, bool_decide_eq_true. done. }
  split.
  { induction (documents st) as [|d l IH]; simpl; [done|].
    destruct (bool_decide (id d ≠ docId)); by constructor. }
  split; [|done].
  intros d Hd. induction (documents st) as [|x l IH]; simpl; [done|].
  destruct (bool_decide (id x ≠ docId)) eqn:Ex; simpl.
  - destruct (bool_decide (x = d)); simpl; by rewrite IH.
  - apply bool_decide_eq_false in Ex.
    rewrite bool_decide_eq_false_2; [exact IH|].
    intros ->. by apply Ex.
Qed.

Lemma handleDelete_frame_witness :
  let st := {| documents := [ {| id := Some (lit "a1"); doc_name := None; filename := None |};
                              {| id := Some (lit "b2"); doc_name := None; filename := None |} ];
               loading := false; error := None |} in
  documents (handleDelete (Some (lit "a1")) (Resolved tt) st)
    = [ {| id := Some (lit "b2"); doc_name := None; filename := None |} ].
Proof.
  cbn zeta.
  rewrite (proj1 (handleDelete_frame (Some (lit "a1")) tt timed_out _)).
  reflexivity.
Defined.

End DocumentClaims.

(** ** Rank fusion *)

Section FusionFacts.

Import Fusion.
Local Open Scope Qc_scope.

Lemma rank_from_ge (n m : nat) (l : list string) (d : string) :
  rank_from n l d = Some m → (n ≤ m)%nat.
Proof.
  revert n. induction l as [|x l IH]; intros n; simpl; [done|].
  destruct (decide (x = d)); [intros [= <-]; lia|].
  intros H%IH. lia.
Qed.

Lemma rank_from_None (n : nat) (l : list string) (d : string) :
  rank_from n l d = None ↔ d ∉ l.
Proof.
  revert n. induction l as [|x l IH]; intros n; simpl.
  - split; [intros _; apply not_elem_of_nil|done].
  - rewrite not_elem_of_cons. destruct (decide (x = d)) as [->|Hne].
    + split; [done|]. by intros [? _].
    + rewrite IH. split; [by intros ?; split|by intros [_ ?]].
Qed.

Lemma Qcinv_le_anti (a b : Qc) : 0 < a → a ≤ b → / b ≤ / a.
Proof.
  intros Ha Hab.
  assert (Hb : 0 < b) by (eapply Qclt_le_trans; eauto).
  apply (Qcmult_lt_0_le_reg_r _ _ (a * b)); [by apply Qcmult_pos_pos|].
  replace (/ b * (a * b)) with a.
  2:{ field. intros ->. by apply (irreflexivity Qclt 0). }
  replace (/ a * (a * b)) with b.
  2:{ field. intros ->. by apply (irreflexivity Qclt 0). }
  done.
Qed.

Lemma denominator_pos (n : nat) : 0 < Qc_of_Z (k + Z.of_nat n).
Proof.
  rewrite <- Z2Qc_inj_0. apply (proj1 (Z2Qc_inj_lt 0 _)). unfold k. lia.
Qed.

(** The term of a list is largest at rank 1. *)
Lemma term_le_first (w : Qc) (r : option nat) (l : list string) (d : string) :
  0 ≤ w → r = rank l d → term w r ≤ term w (Some 1%nat).
Proof.
  intros Hw ->. unfold term.
  destruct (rank l d) as [n|] eqn:E.
  - apply rank_from_ge in E. unfold Qcdiv.
    apply Qcmult_le_mono_nonneg_l; [done|].
    apply Qcinv_le_anti; [apply denominator_pos|].
    apply (proj1 (Z2Qc_inj_le _ _)). lia.
  - unfold Qcdiv. apply Qcmult_nonneg_nonneg; [done|].
    apply Qclt_le_weak, Qcinv_pos, denominator_pos.
Qed.

Lemma w_dense_nonneg : 0 ≤ w_dense.
Proof. by vm_compute. Qed.

Lemma w_sparse_nonneg : 0 ≤ w_sparse.
Proof. by vm_compute. Qed.

Lemma rank_lt_trichotomy (a b : option nat) :
  rank_lt a b ∨ a = b ∨ rank_lt b a.
Proof.
  destruct a as [i|], b as [j|]; simpl; auto.
  destruct (lt_eq_lt_dec i j) as [[?| ->]|?]; auto.
Qed.

Lemma rank_lt_trans (a b c : option nat) :
  rank_lt a b → rank_lt b c → rank_lt a c.
Proof. destruct a, b, c; simpl; try done. lia. Qed.

#[local] Instance precedes_total : Total precedes.
Proof.
  intros a b. unfold precedes.
  destruct (Qclt_le_dec (fused_score b) (fused_score a)) as [?|Hle]; [by left; left|].
  destruct (Qclt_le_dec (fused_score a) (fused_score b)) as [?|Hge]; [by right; left|].
  assert (Heq : fused_score a = fused_score b) by by apply Qcle_antisym.
  destruct (rank_lt_trichotomy (dense_rank a) (dense_rank b)) as [?|[Hr|?]].
  - left; right. auto.
  - destruct (total String.le (chunk_id a) (chunk_id b)).
    + left; right. auto.
    + right; right. auto.
  - right; right. auto.
Qed.

#[local] Instance precedes_trans : Transitive precedes.
Proof.
  intros a b c [Hab|(Eab & Hab)] [Hbc|(Ebc & Hbc)]; unfold precedes.
  - left. by etrans.
  - left. by rewrite <- Ebc.
  - left. by rewrite Eab.
  - right. split; [by etrans|].
    destruct Hab as [Hab|(Rab & Sab)], Hbc as [Hbc|(Rbc & Sbc)].
    + left. by eapply rank_lt_trans.
    + left. by rewrite <- Rbc.
    + left. by rewrite Rab.
    + right. split; [by etrans|]. by etrans.
Qed.

Lemma precedes_score (a b : Candidate) :
  precedes a b → fused_score b ≤ fused_score a.
Proof.
  intros [H|[-> _]]; [by apply Qclt_le_weak|done].
Qed.

Lemma fuse_all_sorted (dense sparse : list string) :
  StronglySorted precedes (fuse_all dense sparse).
Proof. apply (StronglySorted_merge_sort precedes). Qed.

Lemma elem_of_fuse_all (dense sparse : list string) (c : Candidate) :
  c ∈ fuse_all dense sparse ↔
  ∃ d, c = candidate dense sparse d ∧ (d ∈ dense ∨ d ∈ sparse).
Proof.
  unfold fuse_all. rewrite merge_sort_Permutation. unfold candidates.
  rewrite list_elem_of_fmap. setoid_rewrite elem_of_remove_dups.
  setoid_rewrite elem_of_app. done.
Qed.

Lemma StronglySorted_lookup {A} (R : relation A) (l : list A) (i j : nat) (a b : A) :
  StronglySorted R l → (i < j)%nat → l !! i = Some a → l !! j = Some b → R a b.
Proof.
  intros Hl. revert i j a b.
  induction Hl as [|x l Hl IH Hx]; intros i j a b Hij Hi Hj.
  - by rewrite lookup_nil in Hi.
  - destruct j as [|j]; [lia|]. destruct i as [|i]; simpl in *.
    + injection Hi as <-. by eapply Forall_lookup_1.
    + eapply (IH i j); [lia|done..].
Qed.

End FusionFacts.

Section FusionClaims.

Import Fusion.
Local Open Scope Qc_scope.

Lemma rank_from_lookup (n m : nat) (l : list string) (d : string) :
  rank_from n l d = Some m →
  l !! (m - n)%nat = Some d ∧ ∀ p, (p < m - n)%nat → l !! p ≠ Some d.
Proof.
  revert n. induction l as [|x l IH]; intros n; simpl; [done|].
  destruct (decide (x = d)) as [->|Hne].
  - intros [= <-]. rewrite Nat.sub_diag. split; [done|]. intros p Hp. lia.
  - intros H. pose proof (rank_from_ge _ _ _ _ H) as Hge.
    destruct (IH _ H) as [Hl Hfirst].
    replace (m - n)%nat with (S (m - S n)) by lia. split; [done|].
    intros [|p] Hp; simpl; [by intros [= ?]|].
    apply Hfirst. lia.
Qed.

Lemma chunk_ids_fuse_all (dense sparse : list string) :
  chunk_id <$> fuse_all dense sparse ≡ₚ remove_dups (dense ++ sparse).
Proof.
  unfold fuse_all. rewrite merge_sort_Permutation. unfold candidates.
  generalize (remove_dups (dense ++ sparse)). intros l.
  induction l as [|x l IH]; [done|]. simpl. by f_equiv.
Qed.

(** C5: every chunk [d] of the dense or of the sparse list is a
    candidate of the fused list, once, with the score
    [0.6 / (60 + rank_dense d) + 0.4 / (60 + rank_sparse d)], a term being 0
    when [d] is not in that list and a rank being the 1-based position of
    the first occurrence. The fused list is sorted: scores never increase
    along it, and of two candidates with equal scores the one with the
    lower dense rank comes first, then the one with the lexically smaller
    chunk id. A chunk ranked first in both lists scores at least as high as
    any other chunk. *)
Theorem rrf_scores_and_order (dense sparse : list string) (d top : string) :
  d ∈ dense ∨ d ∈ sparse →
  let c := candidate dense sparse d in
  let fused := fuse_all dense sparse in
  c ∈ fused ∧
  NoDup (chunk_id <$> fused) ∧
  fused_score c =
    match rank dense d with
    | Some i => Qc_of_Z 6 / Qc_of_Z 10 / Qc_of_Z (60 + Z.of_nat i)
    | None => 0
    end +
    match rank sparse d with
    | Some j => Qc_of_Z 4 / Qc_of_Z 10 / Qc_of_Z (60 + Z.of_nat j)
    | None => 0
    end ∧
  (rank dense d = None ↔ d ∉ dense) ∧
  (rank sparse d = None ↔ d ∉ sparse) ∧
  (∀ l i, rank l d = Some i →
     (1 ≤ i)%nat ∧ l !! (i - 1)%nat = Some d ∧
     ∀ p, (p < i - 1)%nat → l !! p ≠ Some d) ∧
  StronglySorted precedes fused ∧
  (∀ i j a b, (i < j)%nat → fused !! i = Some a → fused !! j = Some b →
     fused_score b ≤ fused_score a ∧
     (fused_score a = fused_score b →
        rank_lt (dense_rank a) (dense_rank b) ∨
        (dense_rank a = dense_rank b ∧ String.le (chunk_id a) (chunk_id b)))) ∧
  (rank dense top = Some 1%nat → rank sparse top = Some 1%nat →
     fused_score c ≤ fused_score (candidate dense sparse top)).
Proof.
  intros Hd. cbn zeta.
  split. { apply elem_of_fuse_all. by exists d. }
  split. { rewrite chunk_ids_fuse_all. apply NoDup_remove_dups. }
  split; [done|].
  split; [apply rank_from_None|]. split; [apply rank_from_None|].
  split.
  { intros l i Hi. pose proof (rank_from_ge _ _ _ _ Hi).
    destruct (rank_from_lookup _ _ _ _ Hi). done. }
  split; [apply fuse_all_sorted|].
  split.
  { intros i j a b Hij Ha Hb.
    pose proof (StronglySorted_lookup _ _ _ _ _ _
                  (fuse_all_sorted dense sparse) Hij Ha Hb) as Hab.
    split; [by apply precedes_score|].
    intros Heq. destruct Hab as [Hlt|[_ Htie]]; [|done].
    rewrite Heq in Hlt. by apply (irreflexivity Qclt) in Hlt. }
  intros Htd Hts. simpl. rewrite Htd, Hts.
  apply Qcplus_le_compat.
  - by eapply term_le_first; [apply w_dense_nonneg|].
  - by eapply term_le_first; [apply w_sparse_nonneg|].
Qed.

Lemma rrf_scores_and_order_witness :
  let dense := ["a"; "b"; "c"]%string in
  let sparse := ["a"; "d"]%string in
  ("c"%string ∈ dense ∨ "c"%string ∈ sparse) ∧
  rank dense "a" = Some 1%nat ∧ rank sparse "a" = Some 1%nat ∧
  fused_score (candidate dense sparse "c")
    ≤ fused_score (candidate dense sparse "a").
Proof.
  cbn zeta.
  assert (H : "c"%string ∈ ["a"; "b"; "c"]%string ∨ "c"%string ∈ ["a"; "d"]%string).
  { left. do 2 (apply elem_of_cons; right). apply elem_of_cons. by left. }
  split; [exact H|]. split; [reflexivity|]. split; [reflexivity|].
  apply (rrf_scores_and_order ["a"; "b"; "c"]%string ["a"; "d"]%string "c" "a" H);
    reflexivity.
Defined.

End FusionClaims.

(** * Further properties of the client *)

(** ** The chat hook over whole runs *)

Section ChatRunFacts.

Import UseChat ChatRun ChatClosure.

Lemma send_begin_from_current (c : Clock) (q : jsstring) (st : State) :
  send_begin_from (isLoading st) c q st = send_begin c q st.
Proof. reflexivity. Qed.

Lemma call_issued (c : Clock) (q : jsstring) (h : Hook) :
  call_issues q h = true →
  messages (current (call c q h)) = messages (current h) ++ [stamp c (user_draft q)] ∧
  requests (current (call c q h)) = requests (current h) ++ [sendMessage_request q] ∧
  isLoading (current (call c q h)) = true.
Proof.
  unfold call_issues, call, send_begin_from. intros H%negb_true_iff.
  by rewrite H.
Qed.

Lemma call_dropped (c : Clock) (q : jsstring) (h : Hook) :
  call_issues q h = false → call c q h = h.
Proof.
  unfold call_issues, call, send_begin_from. intros H%negb_false_iff.
  rewrite H. by destruct h.
Qed.

Lemma run_loading_pending (in_step : bool) (h : Hook) (n : nat) :
  run in_step h n → isLoading (current h) = true → (1 ≤ n)%nat.
Proof.
  induction 1 as [|h n Hrun IH|c q h n Hrun IH Hstep|c r h n Hrun IH|h n Hrun IH].
  - discriminate.
  - exact IH.
  - destruct (call_issues q h) eqn:E.
    + intros _. lia.
    + by rewrite (call_dropped c q h E).
  - by destruct r.
  - exact IH.
Qed.

Lemma run_in_step_pending (h : Hook) (n : nat) :
  run true h n →
  (n ≤ 1)%nat ∧ (isLoading (current h) = true ↔ n = 1%nat).
Proof.
  induction 1 as [|h n Hrun IH|c q h n Hrun [IHle IHiff] Hstep
                  |c r h n Hrun [IHle IHiff]|h n Hrun IH].
  - split; [lia|]. split; [discriminate|lia].
  - exact IH.
  - destruct (call_issues q h) eqn:E.
    + destruct (call_issued c q h E) as (_ & _ & Hload).
      unfold call_issues in E. apply negb_true_iff, orb_false_iff in E as [_ Hcap].
      rewrite (Hstep eq_refl) in Hcap.
      assert (n = 0%nat) as ->.
      { destruct n as [|[|n]]; [done| |lia].
        rewrite (proj2 IHiff eq_refl) in Hcap. discriminate. }
      split; [lia|]. by rewrite Hload.
    + by rewrite (call_dropped c q h E).
  - assert (n = 0%nat) as -> by lia.
    split; [lia|]. destruct r; simpl; split; (discriminate || lia).
  - done.
Qed.

Lemma run_any (in_step : bool) (h : Hook) (n : nat) :
  run in_step h n → run false h n.
Proof.
  induction 1; by constructor.
Qed.

(** The guard of [send] reads the [isLoading] of the render that built
    the callback. Whenever [isLoading] holds, a request is in flight. When
    every call of [send] follows a render, at most one request is in
    flight and [isLoading] holds exactly while one is. A callback built
    while nothing was loading sends every time it is called before the next
    render: two calls with non-blank queries append two user messages and
    issue two requests, and when the first of the pending requests settles
    [isLoading] is off while another is still in flight. *)
Theorem requests_in_flight
    (in_step : bool) (h : Hook) (n : nat)
    (c1 c2 c3 : Clock) (q1 q2 : jsstring) (r : Settled ChatResponse) :
  run in_step h n →
  (isLoading (current h) = true → (1 ≤ n)%nat) ∧
  (in_step = true → (n ≤ 1)%nat ∧ (isLoading (current h) = true ↔ n = 1%nat)) ∧
  (captured h = false → trim q1 ≠ [] → trim q2 ≠ [] →
     let h2 := call c2 q2 (call c1 q1 h) in
     messages (current h2) =
       messages (current h) ++ [stamp c1 (user_draft q1); stamp c2 (user_draft q2)] ∧
     requests (current h2) =
       requests (current h) ++ [sendMessage_request q1; sendMessage_request q2] ∧
     run false h2 (S (S n)) ∧
     run false (settled c3 r h2) (S n) ∧
     isLoading (current (settled c3 r h2)) = false).
Proof.
  intros Hrun. split; [by eapply run_loading_pending|]. split.
  - intros ->. by apply run_in_step_pending.
  - intros Hcap Hq1%truthy_nonempty Hq2%truthy_nonempty. cbn zeta.
    assert (E1 : call_issues q1 h = true)
      by (unfold call_issues; by rewrite Hq1, Hcap).
    assert (E2 : call_issues q2 (call c1 q1 h) = true)
      by (unfold call_issues; simpl; by rewrite Hq2, Hcap).
    destruct (call_issued c1 q1 h E1) as (Hm1 & Hr1 & _).
    destruct (call_issued c2 q2 (call c1 q1 h) E2) as (Hm2 & Hr2 & _).
    assert (Hrun2 : run false (call c2 q2 (call c1 q1 h)) (S (S n))).
    { pose proof (run_call false c1 q1 h n (run_any _ _ _ Hrun)
                    ltac:(discriminate)) as H1.
      rewrite E1 in H1.
      pose proof (run_call false c2 q2 _ _ H1 ltac:(discriminate)) as H2.
      by rewrite E2 in H2. }
    split; [by rewrite Hm2, Hm1, <- app_assoc|].
    split; [by rewrite Hr2, Hr1, <- app_assoc|].
    split; [exact Hrun2|].
    split; [by constructor|]. by destruct r.
Qed.

Lemma requests_in_flight_witness :
  let h := call noon (lit "And Neo4j?") (call noon (lit "What is LangGraph?") mounted) in
  run false mounted 0 ∧ captured mounted = false ∧
  length (requests (current h)) = 2%nat ∧
  isLoading (current (settled noon (Resolved grounded_answer) h)) = false.
Proof.
  cbn zeta.
  destruct (proj2 (proj2 (requests_in_flight false mounted 0 noon noon noon
              (lit "What is LangGraph?") (lit "And Neo4j?")
              (Resolved grounded_answer) (run_mounted false)))
              eq_refl ltac:(discriminate) ltac:(discriminate))
    as (_ & Hreq & _ & _ & Hload).
  split; [constructor|]. split; [reflexivity|].
  split; [by rewrite Hreq | exact Hload].
Defined.

Lemma user_contents_app (l1 l2 : list Message) :
  user_contents (l1 ++ l2) = user_contents l1 ++ user_contents l2.
Proof. unfold user_contents. by rewrite filter_app, fmap_app. Qed.

Lemma step_user_contents (e : Event) (st : State) :
  e ≠ Clear →
  user_contents (messages st) = request_queries (requests st) →
  user_contents (messages (step e st)) = request_queries (requests (step e st)).
Proof.
  intros He IH. destruct e as [c q|c r|]; [| |done]; cbn [step].
  - unfold send_begin. destruct (send_returns_early q st); [done|]. simpl.
    rewrite user_contents_app, IH. unfold request_queries.
    by rewrite fmap_app.
  - rewrite send_settle_requests, <- IH.
    destruct r; simpl; rewrite user_contents_app; simpl; by rewrite app_nil_r.
Qed.

(** As long as [clearMessages] is not called, the user messages of the
    chat are the queries of the requests issued, one for one and in the
    same order: no query is shown without being sent, and none is sent
    without being shown. *)
Theorem user_messages_match_requests (evs : list Event) :
  Forall (λ e, e ≠ Clear) evs →
  user_contents (messages (replay evs)) = request_queries (requests (replay evs)).
Proof.
  unfold replay. induction evs as [|e evs IH] using rev_ind; [done|].
  intros [Hevs He]%Forall_app. apply Forall_inv in He.
  rewrite foldl_app. simpl. apply step_user_contents; [exact He|by apply IH].
Qed.

Lemma user_messages_match_requests_witness :
  let evs := [Send noon (lit "What is LangGraph?");
              Settle noon (Resolved grounded_answer);
              Send noon (lit "  ")] in
  user_contents (messages (replay evs)) = [Some (lit "What is LangGraph?")] ∧
  request_queries (requests (replay evs)) = [Some (lit "What is LangGraph?")].
Proof.
  cbn zeta. split; [reflexivity|].
  rewrite <- (user_messages_match_requests
    [Send noon (lit "What is LangGraph?");
     Settle noon (Resolved grounded_answer);
     Send noon (lit "  ")]).
  - reflexivity.
  - repeat constructor; discriminate.
Defined.

(** [clearMessages] does not cancel a request: [isLoading] and the
    requests are as before, and when the pending promise settles, its
    assistant message is the only message of the cleared chat. *)
Theorem clear_keeps_pending_answer
    (c : Clock) (r : HttpResult ChatResponse) (st : State) :
  let cleared := clearMessages st in
  let st' := send_settle c (settle r) cleared in
  messages cleared = [] ∧ error cleared = None ∧
  isLoading cleared = isLoading st ∧ requests cleared = requests st ∧
  (∃ m, messages st' = [m] ∧ role m = assistant ∧
        match r with
        | Http_ok data => content m = answer data
        | Http_error e => content m = Some (error_prefix ++ interceptor_message e)
        end) ∧
  isLoading st' = false.
Proof.
  cbn zeta. repeat split; destruct r; simpl; try done; by eexists.
Qed.

End ChatRunFacts.

(** ** Message ids *)

Section IdFacts.

Import UseChat.

Lemma lit_inj (s1 s2 : string) : lit s1 = lit s2 → s1 = s2.
Proof.
  unfold lit. intros H.
  rewrite <- (string_of_list_ascii_of_string s1),
          <- (string_of_list_ascii_of_string s2).
  f_equal. revert H.
  generalize (list_ascii_of_string s1) (list_ascii_of_string s2).
  intros l1. induction l1 as [|a l1 IH]; intros [|b l2]; simpl; try done.
  intros [= Hab Hl]. f_equal; [|by apply IH].
  by rewrite <- (ascii_N_embedding a), <- (ascii_N_embedding b), Hab.
Qed.

Lemma to_int_not_nil (z : Z) :
  Z.to_int z ≠ Decimal.Pos Decimal.Nil ∧ Z.to_int z ≠ Decimal.Neg Decimal.Nil.
Proof.
  destruct z as [|p|p]; simpl; split; try discriminate;
    intros [= H]; by apply DecimalPos.Unsigned.to_uint_nonnil in H.
Qed.

Lemma toString_inj (a b : Z) : toString a = toString b → a = b.
Proof.
  unfold toString. intros H%lit_inj.
  apply DecimalZ.to_int_inj.
  destruct (to_int_not_nil a) as [Ha1 Ha2], (to_int_not_nil b) as [Hb1 Hb2].
  pose proof (NilZero.isi _ Ha1 Ha2) as Ia.
  pose proof (NilZero.isi _ Hb1 Hb2) as Ib.
  rewrite H in Ia. rewrite Ia in Ib. by injection Ib.
Qed.

(** Two messages have the same [id], the key of their bubbles, exactly
    when [Date.now()] gave the same millisecond for both: ids are distinct
    only as far as the clock readings are. *)
Theorem message_ids_follow_clock (c1 c2 : Clock) (m1 m2 : Draft) :
  id (stamp c1 m1) = id (stamp c2 m2) ↔ now_id c1 = now_id c2.
Proof.
  simpl. split; [apply toString_inj|by intros ->].
Qed.

End IdFacts.

(** ** The failure message of a request *)

Section InterceptorFacts.

Import Interceptor.

Lemma message_of_string_detail (e : AxiosError) :
  message_of (of_string_detail e) = interceptor_message e.
Proof.
  unfold message_of, interceptor_message, of_string_detail. simpl.
  destruct (response e) as [[ed]|]; [destruct ed as [[dt]|];
    [destruct dt as [[|x d]|]|]|]; simpl;
    destruct (ax_message e) as [[|y m]|]; reflexivity.
Qed.

(** The failure message is the string form of the [detail] of the body
    of the answer when there is one and it is truthy: the [detail] itself
    when it is a string that is not empty, and for a [detail] that is not
    a string whatever [new Error] makes of it. Failing that, it is the
    message of the axios error when that is not empty, and failing that
    the fixed text. An answer without a body, a body without [detail] and
    a falsy [detail] all fall through. The message is empty only when a
    truthy [detail] has an empty string form. On an error whose [detail]
    is a string or absent this is [interceptor_message]. *)
Theorem failure_message_priority (e : RawError) :
  let d := (raw_response e ≫= raw_data) ≫= raw_detail in
  (∀ v, d = Some v → detail_truthy v = true → message_of e = detail_text v) ∧
  (∀ s, d = Some (detail_string s) → s ≠ [] → message_of e = s) ∧
  (∀ t, d = Some (detail_other true t) → message_of e = t) ∧
  (d = None ∨ (∃ v, d = Some v ∧ detail_truthy v = false) →
     (∀ s, raw_message e = Some s → s ≠ [] → message_of e = s) ∧
     (raw_message e = None ∨ raw_message e = Some [] →
        message_of e = lit "An error occurred")) ∧
  (raw_response e = None → d = None) ∧
  (∀ r, raw_response e = Some r → raw_data r = None → d = None) ∧
  (message_of e = [] → ∃ v, d = Some v ∧ detail_truthy v = true ∧ detail_text v = []) ∧
  (∀ a : AxiosError, message_of (of_string_detail a) = interceptor_message a).
Proof.
  intros d.
  assert (Hm : message_of e =
            match d with
            | Some v =>
                if detail_truthy v then detail_text v
                else default (lit "An error occurred")
                       (or_else (raw_message e) (Some (lit "An error occurred")))
            | None =>
                default (lit "An error occurred")
                  (or_else (raw_message e) (Some (lit "An error occurred")))
            end) by reflexivity.
  assert (Hfall : ∀ s, raw_message e = Some s → s ≠ [] →
            default (lit "An error occurred")
              (or_else (raw_message e) (Some (lit "An error occurred"))) = s).
  { intros [|x s] -> Hs; [done|reflexivity]. }
  assert (Hlit : raw_message e = None ∨ raw_message e = Some [] →
            default (lit "An error occurred")
              (or_else (raw_message e) (Some (lit "An error occurred")))
            = lit "An error occurred").
  { intros [-> | ->]; reflexivity. }
  assert (Hne : default (lit "An error occurred")
              (or_else (raw_message e) (Some (lit "An error occurred"))) ≠ []).
  { destruct (raw_message e) as [[|x s]|]; discriminate. }
  rewrite Hm. repeat split.
  - intros v Hd Hv. by rewrite Hd, Hv.
  - intros s Hd Hs. rewrite Hd. simpl. by destruct s.
  - intros t Hd. by rewrite Hd.
  - intros s Hs Hn. destruct H as [Hd|(v & Hd & Hv)]; rewrite Hd, ?Hv; by apply Hfall.
  - intros Hmsg. destruct H as [Hd|(v & Hd & Hv)]; rewrite Hd, ?Hv; by apply Hlit.
  - intros He. subst d. by rewrite He.
  - intros r He Hr. subst d. rewrite He. simpl. by rewrite Hr.
  - destruct d as [v|]; [|by intros ?].
    destruct (detail_truthy v) eqn:Hv; [|by intros ?].
    intros Ht. by exists v.
  - apply message_of_string_detail.
Qed.

Lemma failure_message_priority_witness :
  message_of
    {| raw_response := Some {| raw_data := Some {| raw_detail :=
         Some (detail_other true (lit "[object Object]")) |} |};
       raw_message := Some (lit "Request failed with status code 422") |}
  = lit "[object Object]".
Proof.
  refine (proj1 (proj2 (proj2 (failure_message_priority
    {| raw_response := Some {| raw_data := Some {| raw_detail :=
         Some (detail_other true (lit "[object Object]")) |} |};
       raw_message := Some (lit "Request failed with status code 422") |})))
    (lit "[object Object]") eq_refl).
Defined.

End InterceptorFacts.

(** ** The input bar and the page *)

Section InputFacts.

Import UseChat InputBarKeys ChatPage.

(** The send button is enabled exactly when [handleSend] would call
    [onSend]. Enter without Shift does what a click does and suppresses the
    newline; any other key, and Shift+Enter, sends nothing and leaves the
    text as it is. *)
Theorem input_bar_button_and_keys (e : KeyEvent) (value : jsstring) (disabled : bool) :
  (button_disabled value disabled = false ↔
     is_Some (InputBar.handleSend value disabled).1) ∧
  (key e = lit "Enter" → shiftKey e = false →
     handleKeyDown e value disabled = (true, InputBar.handleSend value disabled)) ∧
  (key e ≠ lit "Enter" ∨ shiftKey e = true →
     handleKeyDown e value disabled = (false, (None, value))) ∧
  ((InputBar.handleSend value disabled).1 = None →
     (InputBar.handleSend value disabled).2 = value).
Proof.
  unfold button_disabled, handleKeyDown, InputBar.handleSend.
  split; [|split; [|split]].
  - destruct (truthy (trim value)), disabled; simpl; split;
      try done; try (by intros [? ?]); by eexists.
  - intros -> ->. by rewrite bool_decide_eq_true_2.
  - intros [Hk | ->].
    + by rewrite bool_decide_eq_false_2.
    + by rewrite andb_false_r.
  - by destruct (truthy (trim value)), disabled.
Qed.

Lemma input_bar_button_and_keys_witness :
  handleKeyDown {| key := lit "Enter"; shiftKey := true |} (lit "hello") false
    = (false, (None, lit "hello")).
Proof.
  refine (proj1 (proj2 (proj2 (input_bar_button_and_keys
            {| key := lit "Enter"; shiftKey := true |} (lit "hello") false))) _).
  right. reflexivity.
Defined.

(** On the chat page a press on send either does nothing at all, when the
    text is blank or a request is in flight, or it clears the text, shows
    the trimmed text as a user message and issues one request with it: what
    the input bar forwards always passes the guard of the hook. *)
Theorem press_send_sends_or_keeps (c : Clock) (p : Page) :
  (trim (value p) = [] ∨ isLoading (chat p) = true → press_send c p = p) ∧
  (trim (value p) ≠ [] → isLoading (chat p) = false →
     value (press_send c p) = [] ∧
     messages (chat (press_send c p)) =
       messages (chat p) ++ [stamp c (user_draft (trim (value p)))] ∧
     requests (chat (press_send c p)) =
       requests (chat p) ++ [sendMessage_request (trim (value p))] ∧
     isLoading (chat (press_send c p)) = true ∧
     error (chat (press_send c p)) = None).
Proof.
  unfold press_send, InputBar.handleSend. split.
  - intros [Ht | Hl].
    + rewrite Ht. simpl. by destruct p.
    + rewrite Hl, andb_false_r. by destruct p.
  - intros Ht%truthy_nonempty Hl. rewrite Ht, Hl. simpl.
    unfold send_begin, send_returns_early.
    rewrite trim_idem, Ht, Hl. simpl. done.
Qed.

Lemma press_send_sends_or_keeps_witness :
  let p := {| chat := initial; value := lit "  What is LangGraph? " |} in
  trim (value p) ≠ [] ∧ isLoading (chat p) = false ∧
  requests (chat (press_send noon p)) = [sendMessage_request (lit "What is LangGraph?")].
Proof.
  cbn zeta. split; [discriminate|]. split; [reflexivity|].
  rewrite (proj1 (proj2 (proj2 (proj2 (press_send_sends_or_keeps noon
             {| chat := initial; value := lit "  What is LangGraph? " |})
             ltac:(discriminate) eq_refl)))).
  reflexivity.
Defined.

End InputFacts.

(** ** The status line over time *)

Section StatusFacts.

Import AgentStatus.

Lemma render_after_ticks (n : nat) :
  ∃ v, render (after_ticks n) = Some v.
Proof.
  rewrite after_ticks_mod.
  assert (Hlt : (n mod 4 < 4)%nat) by (apply Nat.mod_upper_bound; lia).
  destruct (n mod 4)%nat as [|[|[|[|i]]]]; [by eexists..|lia].
Qed.

(** However long the request takes, the status line has a step to show:
    [stepIndex] stays below the number of steps. Of the four progress dots
    the first [stepIndex + 1] are lit, and the line repeats every four
    ticks of the interval. *)
Theorem status_line_never_runs_out (n : nat) :
  ∃ v, render (after_ticks n) = Some v ∧
    AGENT_STEPS !! (n mod 4)%nat = Some (current v) ∧
    length (dots v) = 4%nat ∧
    dots v = replicate (S (n mod 4)) true ++ replicate (3 - n mod 4) false ∧
    after_ticks (n + 4) = after_ticks n.
Proof.
  rewrite !after_ticks_mod.
  replace ((n + 4) mod 4)%nat with (n mod 4)%nat
    by (rewrite <- (Nat.Div0.mod_add n 1 4); f_equal; lia).
  assert (Hlt : (n mod 4 < 4)%nat) by (apply Nat.mod_upper_bound; lia).
  destruct (n mod 4)%nat as [|[|[|[|i]]]]; [by eexists..|lia].
Qed.

End StatusFacts.

(** ** The graph hook *)

Section GraphHookFacts.

Import UseGraph GraphHook.

Lemma shown_toggle_off (f : gmap string bool) (t : string) (n : Node) :
  f !! t = Some true →
  shown (toggleFilter t f) n = shown f n && bool_decide (type n ≠ t).
Proof.
  intros Ht. unfold shown, toggleFilter. rewrite Ht. simpl.
  destruct (decide (type n = t)) as [->|Hne].
  - rewrite lookup_insert_eq, Ht.
    rewrite (bool_decide_eq_false_2 (Some false ≠ Some false)) by (intros H; by apply H).
    rewrite (bool_decide_eq_false_2 (t ≠ t)) by (intros H; by apply H).
    by rewrite andb_false_r.
  - rewrite lookup_insert_ne by done.
    rewrite (bool_decide_eq_true_2 (type n ≠ t)) by done.
    by rewrite andb_true_r.
Qed.

Lemma shown_toggle_on (f : gmap string bool) (t : string) (n : Node) :
  f !! t = Some false →
  shown (toggleFilter t f) n = shown f n || bool_decide (type n = t).
Proof.
  intros Ht. unfold shown, toggleFilter. rewrite Ht. simpl.
  destruct (decide (type n = t)) as [->|Hne].
  - rewrite lookup_insert_eq, Ht.
    rewrite (bool_decide_eq_true_2 (t = t)) by done.
    rewrite orb_true_r. by apply bool_decide_eq_true_2.
  - rewrite lookup_insert_ne by done.
    rewrite (bool_decide_eq_false_2 (type n = t)) by done.
    by rewrite orb_false_r.
Qed.

(** Switching a type off removes from the displayed nodes exactly the
    nodes of that type, the others staying in their order; switching it
    back on brings back exactly those, each in its place among the fetched
    nodes. *)
Theorem toggle_hides_exactly_one_type
    (f : gmap string bool) (nodes : list Node) (t : string) :
  (f !! t = Some true →
     filteredNodes (toggleFilter t f) nodes
       = List.filter (λ n, bool_decide (type n ≠ t)) (filteredNodes f nodes)) ∧
  (f !! t = Some false →
     filteredNodes f nodes
       = List.filter (λ n, bool_decide (type n ≠ t))
           (filteredNodes (toggleFilter t f) nodes) ∧
     ∀ n, n ∈ nodes → type n = t → n ∈ filteredNodes (toggleFilter t f) nodes).
Proof.
  unfold filteredNodes. split.
  - intros Ht. induction nodes as [|n nodes IH]; simpl; [done|].
    rewrite (shown_toggle_off f t n Ht).
    destruct (shown f n); simpl; [|exact IH].
    destruct (bool_decide (type n ≠ t)); simpl; by rewrite IH.
  - intros Ht. split.
    + induction nodes as [|n nodes IH]; simpl; [done|].
      rewrite (shown_toggle_on f t n Ht).
      destruct (shown f n) eqn:Es; simpl.
      * assert (bool_decide (type n ≠ t) = true) as ->; [|by rewrite <- IH].
        apply bool_decide_eq_true_2. intros Hn. unfold shown in Es.
        rewrite Hn, Ht in Es. apply bool_decide_eq_true in Es. by apply Es.
      * destruct (decide (type n = t)) as [Hn|Hn].
        -- rewrite (bool_decide_eq_true_2 _ Hn). simpl.
           rewrite bool_decide_eq_false_2; [exact IH|]. intros H. by apply H.
        -- rewrite (bool_decide_eq_false_2 _ Hn). exact IH.
    + intros n Hn Hty. apply list_elem_of_In, filter_In.
      split; [by apply list_elem_of_In|].
      rewrite (shown_toggle_on f t n Ht), (bool_decide_eq_true_2 _ Hty).
      apply orb_true_r.
Qed.

Lemma toggle_hides_exactly_one_type_witness :
  initial_filters !! "Person"%string = Some true ∧
  filteredNodes (toggleFilter "Person" initial_filters) two_nodes
    = [ {| node_id := Some (lit "n2"); name := Some (lit "LangGraph");
           type := "TECHNOLOGY" |} ].
Proof.
  split; [reflexivity|].
  rewrite (proj1 (toggle_hides_exactly_one_type initial_filters two_nodes "Person")
             eq_refl).
  reflexivity.
Defined.

End GraphHookFacts.

Section GraphEventFacts.

Import UseGraph GraphHook.









End GraphEventFacts.

(** ** The documents page over whole runs *)

Section DocumentFacts.

Import DocumentsPage DocumentsHandlers.

Lemma step_error_sticky (e : Event) (st : State) :
  is_Some (error st) → is_Some (error (step e st)).
Proof.
  intros Herr. destruct e as [r|up r|docId r]; simpl.
  - unfold fetchDocuments. destruct r; simpl; [exact Herr|by eexists].
  - unfold handleUpload. destruct up; simpl; [|exact Herr].
    unfold fetchDocuments. destruct r; simpl; [exact Herr|by eexists].
  - destruct r; simpl; [exact Herr|by eexists].
Qed.

(** Nothing on the documents page clears [error]: once a reload or a
    deletion has failed, the error banner stays through every later reload,
    upload and deletion, successful or not. A failed upload, for its part,
    never sets it. *)
Theorem documents_error_is_never_cleared (evs : list Event) (st : State) :
  is_Some (error st) →
  is_Some (error (foldl (λ s e, step e s) st evs)) ∧
  (∀ e docs, is_Some (error (step (Reload (Http_ok docs)) (step (Reload (Http_error e)) st)))) ∧
  (∀ up reload, error (step (Upload (Http_error up) reload) st) = error st).
Proof.
  intros Herr. split; [|split].
  - revert st Herr. induction evs as [|e evs IH]; intros st Herr; [done|].
    simpl. apply IH. by apply step_error_sticky.
  - intros e docs. simpl. by eexists.
  - done.
Qed.

Lemma documents_error_is_never_cleared_witness :
  let st := step (Delete (Some (lit "a1")) (Http_error timed_out)) initial in
  is_Some (error st) ∧
  is_Some (error (foldl (λ s e, step e s) st [Reload (Http_ok (Some []))])).
Proof.
  cbn zeta.
  assert (H : is_Some (error (step (Delete (Some (lit "a1")) (Http_error timed_out)) initial)))
    by (by eexists).
  split; [exact H|].
  apply (proj1 (documents_error_is_never_cleared [Reload (Http_ok (Some []))] _ H)).
Defined.

Lemma filter_filter_comm {A} (p q : A → bool) (l : list A) :
  List.filter p (List.filter q l) = List.filter q (List.filter p l).
Proof.
  induction l as [|x l IH]; simpl; [done|].
  destruct (p x) eqn:Ep, (q x) eqn:Eq; simpl; rewrite ?Ep, ?Eq, IH; done.
Qed.

Lemma filter_idem {A} (p : A → bool) (l : list A) :
  List.filter p (List.filter p l) = List.filter p l.
Proof.
  induction l as [|x l IH]; simpl; [done|].
  destruct (p x) eqn:Ep; simpl; rewrite ?Ep, IH; done.
Qed.

(** Deleting is idempotent and order-independent: a second successful
    deletion of the same id changes nothing, and two successful deletions
    give the same page in either order. *)
Theorem deletions_commute (a b : option jsstring) (st : State) :
  handleDelete a (Resolved tt) (handleDelete a (Resolved tt) st)
    = handleDelete a (Resolved tt) st ∧
  handleDelete a (Resolved tt) (handleDelete b (Resolved tt) st)
    = handleDelete b (Resolved tt) (handleDelete a (Resolved tt) st).
Proof.
  unfold handleDelete, setDocuments. simpl. split; f_equal.
  - apply filter_idem.
  - apply filter_filter_comm.
Qed.

Lemma filter_id_delete (l : list Doc) (i : nat) (d : Doc) :
  NoDup (id <$> l) → l !! i = Some d →
  List.filter (λ x, bool_decide (id x ≠ id d)) l = delete i l.
Proof.
  revert i. induction l as [|x l IH]; intros i Hnd Hi; [done|].
  simpl in Hnd. apply list.NoDup_cons in Hnd as [Hx Hnd].
  destruct i as [|i]; simpl in *.
  - injection Hi as ->.
    rewrite bool_decide_eq_false_2 by (intros H; by apply H).
    clear IH. induction l as [|y l IHl]; simpl; [done|].
    simpl in Hx, Hnd. apply not_elem_of_cons in Hx as [Hy Hx].
    apply list.NoDup_cons in Hnd as [_ Hnd].
    rewrite bool_decide_eq_true_2 by (intros H; by apply Hy).
    f_equal. by apply IHl.
  - rewrite bool_decide_eq_true_2.
    + f_equal. by apply IH.
    + intros Heq. apply Hx. rewrite Heq.
      apply list_elem_of_fmap. exists d. split; [done|].
      by eapply list_elem_of_lookup_2.
Qed.

(** When the documents have distinct ids, a click on the delete button of
    a row, once the server has deleted the document, removes that row and
    no other. *)
Theorem delete_click_removes_its_row
    (st : State) (i : nat) (docId : option jsstring) :
  NoDup (id <$> documents st) →
  DocumentList.delete_click (documents st) (loading st) i = Some docId →
  documents (handleDelete docId (Resolved tt) st) = delete i (documents st) ∧
  length (documents (handleDelete docId (Resolved tt) st))
    = (length (documents st) - 1)%nat.
Proof.
  intros Hnd Hclick. unfold DocumentList.delete_click in Hclick.
  destruct (DocumentList.body _ _); try discriminate.
  destruct (documents st !! i) as [d|] eqn:Hd; [|discriminate].
  injection Hclick as <-. simpl.
  rewrite (filter_id_delete _ i d Hnd Hd). split; [done|].
  rewrite length_delete by by eexists. done.
Qed.

Lemma delete_click_removes_its_row_witness :
  let a := {| id := Some (lit "a1"); doc_name := None; filename := None |} in
  let b := {| id := Some (lit "b2"); doc_name := None; filename := None |} in
  let st := {| documents := [a; b]; loading := false; error := None |} in
  NoDup (id <$> documents st) ∧
  DocumentList.delete_click (documents st) (loading st) 1 = Some (Some (lit "b2")) ∧
  documents (handleDelete (Some (lit "b2")) (Resolved tt) st) = [a].
Proof.
  cbn zeta.
  assert (Hnd : NoDup [Some (lit "a1"); Some (lit "b2")]).
  { apply list.NoDup_cons. split.
    - intros H. apply list_elem_of_singleton in H. discriminate.
    - apply NoDup_singleton. }
  split; [exact Hnd|]. split; [reflexivity|].
  apply (delete_click_removes_its_row
           {| documents := [ {| id := Some (lit "a1"); doc_name := None; filename := None |};
                             {| id := Some (lit "b2"); doc_name := None; filename := None |} ];
              loading := false; error := None |} 1 (Some (lit "b2")) Hnd eq_refl).
Defined.

Lemma filter_without_ids (l : list Doc) (docId : option jsstring) :
  (∀ d, d ∈ l → id d = docId) →
  List.filter (λ d, bool_decide (id d ≠ docId)) l = [].
Proof.
  induction l as [|x l IH]; intros Hids; simpl; [done|].
  rewrite (Hids x) by (apply elem_of_cons; by left).
  rewrite bool_decide_eq_false_2 by (intros H; by apply H).
  apply IH. intros y Hy. apply Hids. apply elem_of_cons. by right.
Qed.

(** When no document of the list has an [id] property, as when the server
    names it [doc_id], the delete button of any row asks the server for
    [/documents/undefined], and a successful answer empties the whole
    list. *)
Theorem delete_without_ids_empties_list
    (st : State) (i : nat) (docId : option jsstring) :
  (∀ d, d ∈ documents st → id d = None) →
  DocumentList.delete_click (documents st) (loading st) i = Some docId →
  docId = None ∧
  req_url (deleteDocument_request docId) = lit "/documents/undefined" ∧
  documents (handleDelete docId (Resolved tt) st) = [].
Proof.
  intros Hids Hclick. unfold DocumentList.delete_click in Hclick.
  destruct (DocumentList.body _ _); try discriminate.
  destruct (documents st !! i) as [d|] eqn:Hd; [|discriminate].
  injection Hclick as <-.
  rewrite (Hids d) by by eapply list_elem_of_lookup_2.
  split; [done|]. split; [done|]. simpl.
  by apply filter_without_ids.
Qed.

Lemma delete_without_ids_empties_list_witness :
  let a := {| id := None; doc_name := None; filename := Some (lit "a.pdf") |} in
  let b := {| id := None; doc_name := None; filename := Some (lit "b.pdf") |} in
  let st := {| documents := [a; b]; loading := false; error := None |} in
  (∀ d, d ∈ documents st → id d = None) ∧
  DocumentList.delete_click (documents st) (loading st) 0 = Some None ∧
  documents (handleDelete None (Resolved tt) st) = [].
Proof.
  cbn zeta.
  assert (H : ∀ d, d ∈ [ {| id := None; doc_name := None; filename := Some (lit "a.pdf") |};
                         {| id := None; doc_name := None; filename := Some (lit "b.pdf") |} ]
              → id d = None).
  { intros d Hd. apply elem_of_cons in Hd as [->|Hd]; [reflexivity|].
    apply list_elem_of_singleton in Hd as ->. reflexivity. }
  split; [exact H|]. split; [reflexivity|].
  apply (delete_without_ids_empties_list
           {| documents := [ {| id := None; doc_name := None; filename := Some (lit "a.pdf") |};
                             {| id := None; doc_name := None; filename := Some (lit "b.pdf") |} ];
              loading := false; error := None |} 0 None H eq_refl).
Defined.

End DocumentFacts.

(** ** Uploads *)

Section UploadFacts.

Import DocumentsPage DocumentsHandlers DocumentUpload.

Lemma upload_one_uploading {A} (st : DocumentUpload.State) (r : Settled A) :
  uploading (upload_one st r) = uploading st.
Proof. by destruct r. Qed.

(** A drop of several files reports the last one only: after the loop
    [status] is ['success'] or ['error'] according to how the upload of
    the last file settled, whatever happened to the files before it, and
    [progress] is 100 or 20 accordingly. [uploading] is off again. A drop
    of no file changes nothing. *)
Theorem drop_reports_last_file
    {A} (outcomes : list (Settled A)) (r : Settled A) (st : DocumentUpload.State) :
  let st' := onDrop (outcomes ++ [r]) st in
  uploading st' = false ∧
  status st' = Some (match r with Resolved _ => success | Rejected _ => failure end) ∧
  progress st' = (match r with Resolved _ => 100 | Rejected _ => 20 end) ∧
  onDrop (@nil (Settled A)) st = st.
Proof.
  cbn zeta. unfold onDrop.
  rewrite bool_decide_eq_false_2 by (rewrite length_app; simpl; lia).
  rewrite foldl_app. simpl. by destruct r.
Qed.

(** [handleUpload] succeeds exactly when the upload request does. A
    failed upload leaves the page as it was: no reload, and the failure
    message of the server is not put in [error]. After a successful upload
    the list is reloaded, and if the reload fails the promise still
    resolves, so that the drop zone reports success, while the page keeps
    its earlier list and shows the error of the reload. *)
Theorem upload_outcome_ignores_reload
    {A} (upload : HttpResult A) (reload : HttpResult (option (list Doc)))
    (st : DocumentsPage.State) :
  let result := handleUpload upload reload st in
  (∀ e, upload = Http_error e →
     result = (st, Rejected (interceptor_rejected e))) ∧
  (∀ a, upload = Http_ok a →
     result.2 = Resolved tt ∧
     loading result.1 = false ∧
     status (onDrop [result.2] DocumentUpload.initial) = Some success ∧
     (∀ docs, reload = Http_ok (Some docs) →
        documents result.1 = docs ∧ error result.1 = error st) ∧
     (reload = Http_ok None → documents result.1 = []) ∧
     (∀ e, reload = Http_error e →
        documents result.1 = documents st ∧
        error result.1 = Some (interceptor_message e))).
Proof.
  cbn zeta. unfold handleUpload, fetchDocuments. split.
  - by intros e ->.
  - intros a ->. simpl. repeat split; intros; subst; done.
Qed.

Lemma upload_outcome_ignores_reload_witness :
  let result := handleUpload (Http_ok tt) (Http_error timed_out) DocumentsHandlers.initial in
  result.2 = Resolved tt ∧
  error result.1 = Some (lit "timeout of 60000ms exceeded").
Proof.
  cbn zeta.
  destruct (proj2 (upload_outcome_ignores_reload (Http_ok tt) (Http_error timed_out)
                     DocumentsHandlers.initial) tt eq_refl)
    as (Hres & _ & _ & _ & _ & Hfail).
  split; [exact Hres|]. exact (proj2 (Hfail timed_out eq_refl)).
Defined.

End UploadFacts.

(** ** The list of sources of a bubble *)

Section SourceFacts.

Import UseChat MessageBubble.

Lemma item_key_imap (l : list Source) (k : nat) :
  item_key <$> imap (λ i s, render_item (k + i) s) l = seq k (length l).
Proof.
  revert k. induction l as [|s l IH]; intros k; [done|].
  simpl. f_equal; [lia|].
  rewrite <- (IH (S k)). f_equal. apply imap_ext. intros i x _. simpl.
  unfold render_item. f_equal; lia.
Qed.

(** Each entry of the list of sources has a label that is not empty: the
    document name, else the title, else the word Source; an empty name
    or title is skipped. Its excerpt is rendered only when the chunk is not
    empty. The entries are as many as the sources and their keys are their
    positions. *)
Theorem source_entries_are_labelled (ls : Local) (m : Message) (srcs : list Source) :
  showSources ls = true →
  msg_sources m = Some srcs →
  ∃ items, render_sources ls m = Some items ∧
    length items = length srcs ∧
    item_key <$> items = seq 0 (length srcs) ∧
    ∀ i s, srcs !! i = Some s →
      ∃ it lbl, items !! i = Some it ∧ item_label it = Some lbl ∧ lbl ≠ [] ∧
        (∀ d, document s = Some d → d ≠ [] → lbl = d) ∧
        (document s = None ∨ document s = Some [] →
           ∀ t, title s = Some t → t ≠ [] → lbl = t) ∧
        (document s = None ∨ document s = Some [] →
         title s = None ∨ title s = Some [] → lbl = lit "Source") ∧
        item_chunk it ≠ Some [] ∧
        (∀ c, chunk s = Some c → c ≠ [] → item_chunk it = Some c).
Proof.
  intros Hshow Hsrcs. unfold render_sources. rewrite Hshow, Hsrcs.
  eexists. split; [done|].
  split; [by rewrite length_imap|].
  split.
  { apply (item_key_imap srcs 0). }
  intros i s Hs. rewrite list_lookup_imap, Hs. simpl.
  destruct s as [[[|x d]|] [[|y t]|] [[|z c]|]]; simpl;
    (eexists _, _; split; [reflexivity|]);
    (split; [reflexivity|]); (split; [discriminate|]);
    repeat split; try discriminate; try done;
    try (intros ? [= <-] ?; done);
    try (intros [?|?]; discriminate);
    try (intros [?|?] ? [= <-] ?; done || discriminate);
    try (intros [?|?] [?|?]; done || discriminate).
Qed.

Lemma source_entries_are_labelled_witness :
  let m := stamp noon (answer_draft grounded_answer) in
  let ls := {| copied := false; showSources := true |} in
  showSources ls = true ∧
  msg_sources m = Some [ {| document := None; title := None; chunk := None |} ] ∧
  ∃ items, render_sources ls m = Some items ∧ length items = 1%nat.
Proof.
  cbn zeta. split; [reflexivity|]. split; [reflexivity|].
  destruct (source_entries_are_labelled {| copied := false; showSources := true |}
              (stamp noon (answer_draft grounded_answer))
              [ {| document := None; title := None; chunk := None |} ] eq_refl eq_refl)
    as (items & Hr & Hlen & _).
  exists items. split; [exact Hr | exact Hlen].
Defined.

End SourceFacts.

(** ** The chat window and the hook *)

Section WindowFacts.

Import UseChat ChatClosure.

(** The chat window follows the hook. The status line is on screen
    exactly while [isLoading] holds, however many times the interval has
    fired, so a status line on screen means that a request is in flight;
    when every call of [send] follows a render, it is on screen exactly
    while one request is in flight. There is one bubble per message, in
    order, showing its content, and the welcome text is shown exactly when
    there is no message. *)
Theorem chat_window_follows_hook
    (in_step : bool) (h : Hook) (n ticks : nat)
    (locals : jsstring → MessageBubble.Local) :
  run in_step h n →
  let st := current h in
  let v := ChatWindow.render locals (AgentStatus.after_ticks ticks)
             (messages st) (isLoading st) in
  (is_Some (ChatWindow.status v) ↔ isLoading st = true) ∧
  (is_Some (ChatWindow.status v) → (1 ≤ n)%nat) ∧
  (in_step = true → (is_Some (ChatWindow.status v) ↔ n = 1%nat)) ∧
  MessageBubble.body <$> ChatWindow.bubbles v = content <$> messages st ∧
  (ChatWindow.placeholder v = true ↔ messages st = []).
Proof.
  intros Hrun. cbn zeta.
  destruct (render_after_ticks ticks) as [w Hw].
  assert (Hstatus : is_Some (ChatWindow.status
            (ChatWindow.render locals (AgentStatus.after_ticks ticks)
               (messages (current h)) (isLoading (current h))))
          ↔ isLoading (current h) = true).
  { unfold ChatWindow.render. simpl. destruct (isLoading (current h)).
    - rewrite Hw. split; [done|by eexists].
    - split; [by intros [? ?]|discriminate]. }
  split; [exact Hstatus|]. split; [|split; [|split]].
  - intros Hs%Hstatus. by eapply run_loading_pending.
  - intros ->. rewrite Hstatus. by apply run_in_step_pending.
  - unfold ChatWindow.render. simpl. by rewrite <- list_fmap_compose.
  - unfold ChatWindow.render. simpl. rewrite bool_decide_eq_true. split.
    + by intros ?%nil_length_inv.
    + by intros ->.
Qed.

Lemma chat_window_follows_hook_witness :
  let h := call noon (lit "What is LangGraph?") mounted in
  run true h 1 ∧
  is_Some (ChatWindow.status
             (ChatWindow.render (λ _, MessageBubble.fresh) (AgentStatus.after_ticks 7)
                (messages (current h)) (isLoading (current h)))).
Proof.
  cbn zeta.
  assert (H : run true (call noon (lit "What is LangGraph?") mounted) 1)
    by apply (run_call true noon (lit "What is LangGraph?") mounted 0
                (run_mounted true) (λ _, eq_refl)).
  split; [exact H|].
  apply (proj2 (proj1 (proj2 (proj2 (chat_window_follows_hook true _ 1 7
            (λ _, MessageBubble.fresh) H))) eq_refl)).
  reflexivity.
Defined.

End WindowFacts.
